(** * MeshSync wire protocol: envelope, message kinds and their serializers

    A shallow embedding of [Plugin/MeshSync/msProtocol.h] and
    [Plugin~/Src/MeshSync/msProtocol.cpp].

    - An [std::ostream] is modelled by the bytes a call appends to it, an
      [std::istream] by the bytes that are still unread.
    - [deserialize] mutates the receiving object and may throw: it is a
      function from the object and the unread bytes to the object, the unread
      bytes and the exception in flight, if any.
    - The templates [write(os, v)] / [read(is, v)], the macros [msWrite] /
      [msRead], the constant [msProtocolVersion] and the scene-graph types are
      declared in headers that are not part of these two files; they are the
      fields of the class [Externals]. *)

From Stdlib Require Import ZArith List Lia String Ascii Bool.
From coqutil Require Import Byte Word.LittleEndianList.
Import ListNotations.
Local Open Scope Z_scope.

(** ** Codec primitives *)

Definition stream := list byte.

(** [write(os, v)] and [read(is, v)] for one C++ type.  [valid] singles out
    the values of the Rocq carrier that the C++ type can hold and the encoding
    covers.  [read_write] is the contract of the primitives: [write] "appends
    a value's canonical binary encoding", [read] "consumes exactly that
    encoding", and the encoding is "self-delimiting". *)
Class Serializer (T : Type) := {
  valid : T -> Prop;
  write : T -> stream;
  read : stream -> option (T * stream);
  read_write : forall x rest, valid x -> read (write x ++ rest) = Some (x, rest)
}.

(** [uint32_t] conversion of a mathematical integer. *)
Definition uint32_t (z : Z) : Z := z mod 2 ^ 32.

(** Number of bytes [write] appends for [x]. *)
Definition ssize {T} `{Serializer T} (x : T) : Z := Z.of_nat (List.length (write x)).

(** [struct GetFlags]: twelve one-bit fields of a [uint32_t]. *)
Record GetFlags := {
  get_transform : bool;
  get_points : bool;
  get_normals : bool;
  get_tangents : bool;
  get_uv0 : bool;
  get_uv1 : bool;
  get_colors : bool;
  get_indices : bool;
  get_material_ids : bool;
  get_bones : bool;
  get_blendshapes : bool;
  apply_culling : bool
}.

(** [std::shared_ptr<Message>]: null, or the identity of the pointee. *)
Definition MessagePtr := option nat.

(** What the two files take from the rest of the code base.  An [enum class]
    without a base has underlying type [int] and goes through the [int]
    serializer. *)
Class Externals := {
  msProtocolVersion : Z;
  Timestamp : Type;
  SceneSettings : Type;
  MeshRefineSettings : Type;
  Scene : Type;
  Identifier : Type;
  int_serializer :: Serializer Z;
  GetFlags_serializer :: Serializer GetFlags;
  Timestamp_serializer :: Serializer Timestamp;
  SceneSettings_serializer :: Serializer SceneSettings;
  MeshRefineSettings_serializer :: Serializer MeshRefineSettings;
  Scene_serializer :: Serializer Scene;
  string_serializer :: Serializer string;
  Identifiers_serializer :: Serializer (list Identifier);
  strings_serializer :: Serializer (list string)
}.

(** ** Decoding with mutation and exceptions *)

Inductive exn :=
| runtime_error (what : string)
| decode_error.

(** A member function [void f(std::istream& is)] of a class with state [O]. *)
Definition Deser (O : Type) := O -> stream -> O * stream * option exn.

Section Deser.
Context {O : Type}.

(** [read(is, field)]: on success the field is assigned and the bytes are
    consumed.  The body of [read] is in another header; by its contract it
    "fails with a decode error if the stream is exhausted early", and the
    failure leaves [deserialize] like an exception, the field unassigned. *)
Definition rd {T} `{Serializer T} (set : T -> O -> O) : Deser O :=
  fun o inp =>
    match read inp with
    | Some (v, inp') => (set v o, inp', None)
    | None => (o, inp, Some decode_error)
    end.

(** [if (!ok) throw e;] *)
Definition throw_unless (ok : O -> bool) (e : exn) : Deser O :=
  fun o inp => if ok o then (o, inp, None) else (o, inp, Some e).

(** Statement sequencing: an exception skips the rest. *)
Definition andThen (a b : Deser O) : Deser O :=
  fun o inp =>
    match a o inp with
    | (o', inp', None) => b o' inp'
    | r => r
    end.

(** [super::deserialize(is)] run on the base-class subobject. *)
Definition on_super {P} (get : O -> P) (set : P -> O -> O) (d : Deser P) : Deser O :=
  fun o inp =>
    let '(p, inp', e) := d (get o) inp in (set p o, inp', e).

(** An empty function body. *)
Definition skip : Deser O := fun o inp => (o, inp, None).
End Deser.

Notation "a ;; b" := (andThen a b) (at level 61, left associativity).

(** ** [class Message] *)

Module Message.
(** [enum class Type], as [msProtocol.h] lists it. *)
Inductive Type_ :=
| Unknown | Get | Set_ | Delete | Fence | Text | Screenshot | Query | Response.

Definition Type_all : list Type_ :=
  [Unknown; Get; Set_; Delete; Fence; Text; Screenshot; Query; Response].

(** The value of each enumerator: they count up from zero. *)
Definition Type_value (e : Type_) : Z :=
  match e with
  | Unknown => 0 | Get => 1 | Set_ => 2 | Delete => 3 | Fence => 4
  | Text => 5 | Screenshot => 6 | Query => 7 | Response => 8
  end.

(** The identifier of each enumerator in the header. *)
Definition Type_name (e : Type_) : string :=
  match e with
  | Unknown => "Unknown" | Get => "Get" | Set_ => "Set" | Delete => "Delete"
  | Fence => "Fence" | Text => "Text" | Screenshot => "Screenshot"
  | Query => "Query" | Response => "Response"
  end.

(** Look an enumerator up by its identifier. *)
Definition Type_named (s : string) : option Type_ :=
  find (fun e => String.eqb (Type_name e) s) Type_all.

Section WithExternals.
Context `{Externals}.

(** [timestamp_send] is the fourth field [msProtocol.cpp] writes; its type
    is [Timestamp]. *)
Record t := {
  protocol_version : Z;
  session_id : Z;
  message_id : Z;
  timestamp_send : Timestamp
}.

Definition set_protocol_version v m :=
  {| protocol_version := v; session_id := session_id m;
     message_id := message_id m; timestamp_send := timestamp_send m |}.
Definition set_session_id v m :=
  {| protocol_version := protocol_version m; session_id := v;
     message_id := message_id m; timestamp_send := timestamp_send m |}.
Definition set_message_id v m :=
  {| protocol_version := protocol_version m; session_id := session_id m;
     message_id := v; timestamp_send := timestamp_send m |}.
Definition set_timestamp_send v m :=
  {| protocol_version := protocol_version m; session_id := session_id m;
     message_id := message_id m; timestamp_send := v |}.

Definition version_error : exn :=
  runtime_error "Protocol version doesn't match".

Definition serialize (m : t) : stream :=
  write (protocol_version m) ++
  write (session_id m) ++
  write (message_id m) ++
  write (timestamp_send m).

Definition deserialize : Deser t :=
  rd set_protocol_version ;;
  throw_unless (fun m => protocol_version m =? msProtocolVersion) version_error ;;
  rd set_session_id ;;
  rd set_message_id ;;
  rd set_timestamp_send.

Definition wf (m : t) : Prop :=
  valid (protocol_version m) /\ valid (session_id m) /\
  valid (message_id m) /\ valid (timestamp_send m).

(** Modelled from the spec: [msProtocol.h] declares
    [virtual uint32_t getSerializeSize() const] and neither file defines
    it.  "Must return the exact byte count the serializer will write": the
    sizes of the fields [serialize] writes, added up in the declared
    [uint32_t]. *)
Definition getSerializeSize (m : t) : Z :=
  uint32_t (ssize (protocol_version m) + ssize (session_id m) +
            ssize (message_id m) + ssize (timestamp_send m)).
End WithExternals.
End Message.

(** The fields of a [GetFlags] in declaration order. *)
Definition GetFlags_fields (f : GetFlags) : list bool :=
  [get_transform f; get_points f; get_normals f; get_tangents f;
   get_uv0 f; get_uv1 f; get_colors f; get_indices f;
   get_material_ids f; get_bones f; get_blendshapes f; apply_culling f].

(** ** [class GetMessage] *)

Module GetMessage.
Section WithExternals.
Context `{Externals}.

Record t := {
  super : Message.t;
  flags : GetFlags;
  scene_settings : SceneSettings;
  refine_settings : MeshRefineSettings;
  ready : bool  (* non-serializable *)
}.

Definition set_super v m :=
  {| super := v; flags := flags m; scene_settings := scene_settings m;
     refine_settings := refine_settings m; ready := ready m |}.
Definition set_flags v m :=
  {| super := super m; flags := v; scene_settings := scene_settings m;
     refine_settings := refine_settings m; ready := ready m |}.
Definition set_scene_settings v m :=
  {| super := super m; flags := flags m; scene_settings := v;
     refine_settings := refine_settings m; ready := ready m |}.
Definition set_refine_settings v m :=
  {| super := super m; flags := flags m; scene_settings := scene_settings m;
     refine_settings := v; ready := ready m |}.
Definition set_ready v m :=
  {| super := super m; flags := flags m; scene_settings := scene_settings m;
     refine_settings := refine_settings m; ready := v |}.

(** The constructor body, run on the object the member initialisers
    ([flags = {0}] among them) have built.  [SetAllGetFlags] is defined in
    another header and described nowhere; it is an argument here. *)
Definition ctor (SetAllGetFlags : GetFlags -> GetFlags) (m : t) : t :=
  set_flags (SetAllGetFlags (flags m)) m.

Definition serialize (m : t) : stream :=
  Message.serialize (super m) ++
  write (flags m) ++
  write (scene_settings m) ++
  write (refine_settings m).

Definition deserialize : Deser t :=
  on_super super set_super Message.deserialize ;;
  rd set_flags ;;
  rd set_scene_settings ;;
  rd set_refine_settings.

Definition wf (m : t) : Prop :=
  Message.wf (super m) /\ valid (flags m) /\
  valid (scene_settings m) /\ valid (refine_settings m).

(** Modelled from the spec: the override is declared and defined in
    neither file; the size of the base class plus the sizes of the fields
    this class writes, in [uint32_t]. *)
Definition getSerializeSize (m : t) : Z :=
  uint32_t (Message.getSerializeSize (super m) + ssize (flags m) +
            ssize (scene_settings m) + ssize (refine_settings m)).
End WithExternals.
End GetMessage.

(** ** [class SetMessage] *)

Module SetMessage.
Section WithExternals.
Context `{Externals}.

Record t := {
  super : Message.t;
  scene : Scene
}.

Definition set_super v m := {| super := v; scene := scene m |}.
Definition set_scene v m := {| super := super m; scene := v |}.

(** [msWrite(scene)] is [write(os, scene)]. *)
Definition serialize (m : t) : stream :=
  Message.serialize (super m) ++
  write (scene m).

(** [msRead(scene)] is [read(is, scene)]. *)
Definition deserialize : Deser t :=
  on_super super set_super Message.deserialize ;;
  rd set_scene.

Definition wf (m : t) : Prop :=
  Message.wf (super m) /\ valid (scene m).

(** Modelled from the spec: the override is declared and defined in
    neither file; the size of the base class plus the sizes of the fields
    this class writes, in [uint32_t]. *)
Definition getSerializeSize (m : t) : Z :=
  uint32_t (Message.getSerializeSize (super m) + ssize (scene m)).
End WithExternals.
End SetMessage.

(** ** [class DeleteMessage] *)

Module DeleteMessage.
Section WithExternals.
Context `{Externals}.

(** The three vectors [msProtocol.cpp] writes and reads; the header is of an
    earlier revision and has a single [targets] vector. *)
Record t := {
  super : Message.t;
  entities : list Identifier;
  materials : list Identifier;
  instances : list Identifier
}.

Definition set_super v m :=
  {| super := v; entities := entities m;
     materials := materials m; instances := instances m |}.
Definition set_entities v m :=
  {| super := super m; entities := v;
     materials := materials m; instances := instances m |}.
Definition set_materials v m :=
  {| super := super m; entities := entities m;
     materials := v; instances := instances m |}.
Definition set_instances v m :=
  {| super := super m; entities := entities m;
     materials := materials m; instances := v |}.

Definition serialize (m : t) : stream :=
  Message.serialize (super m) ++
  write (entities m) ++
  write (materials m) ++
  write (instances m).

Definition deserialize : Deser t :=
  on_super super set_super Message.deserialize ;;
  rd set_entities ;;
  rd set_materials ;;
  rd set_instances.

Definition wf (m : t) : Prop :=
  Message.wf (super m) /\ valid (entities m) /\
  valid (materials m) /\ valid (instances m).

(** Modelled from the spec: the override is declared and defined in
    neither file; the size of the base class plus the sizes of the fields
    this class writes, in [uint32_t]. *)
Definition getSerializeSize (m : t) : Z :=
  uint32_t (Message.getSerializeSize (super m) + ssize (entities m) +
            ssize (materials m) + ssize (instances m)).
End WithExternals.
End DeleteMessage.

(** ** [class FenceMessage] *)

Module FenceMessage.
Inductive FenceType := Unknown | SceneBegin | SceneEnd.

(** The value of each enumerator: they count up from zero. *)
Definition FenceType_value (e : FenceType) : Z :=
  match e with Unknown => 0 | SceneBegin => 1 | SceneEnd => 2 end.

Definition FenceType_all : list FenceType := [Unknown; SceneBegin; SceneEnd].

Section WithExternals.
Context `{Externals}.

(** [type] holds the [int] under the enum: [read] stores whatever the
    stream carries. *)
Record t := {
  super : Message.t;
  type : Z
}.

Definition set_super v m := {| super := v; type := type m |}.
Definition set_type v m := {| super := super m; type := v |}.

Definition serialize (m : t) : stream :=
  Message.serialize (super m) ++
  write (type m).

Definition deserialize : Deser t :=
  on_super super set_super Message.deserialize ;;
  rd set_type.

Definition wf (m : t) : Prop :=
  Message.wf (super m) /\ valid (type m).

(** Modelled from the spec: the override is declared and defined in
    neither file; the size of the base class plus the sizes of the fields
    this class writes, in [uint32_t]. *)
Definition getSerializeSize (m : t) : Z :=
  uint32_t (Message.getSerializeSize (super m) + ssize (type m)).
End WithExternals.
End FenceMessage.

(** ** [class TextMessage] *)

Module TextMessage.
Inductive Type_ := Normal | Warning | Error.

Definition Type_value (e : Type_) : Z :=
  match e with Normal => 0 | Warning => 1 | Error => 2 end.

Section WithExternals.
Context `{Externals}.

Record t := {
  super : Message.t;
  text : string;
  type : Z
}.

Definition set_super v m := {| super := v; text := text m; type := type m |}.
Definition set_text v m := {| super := super m; text := v; type := type m |}.
Definition set_type v m := {| super := super m; text := text m; type := v |}.

Definition serialize (m : t) : stream :=
  Message.serialize (super m) ++
  write (text m) ++
  write (type m).

Definition deserialize : Deser t :=
  on_super super set_super Message.deserialize ;;
  rd set_text ;;
  rd set_type.

Definition wf (m : t) : Prop :=
  Message.wf (super m) /\ valid (text m) /\ valid (type m).

(** Modelled from the spec: the override is declared and defined in
    neither file; the size of the base class plus the sizes of the fields
    this class writes, in [uint32_t]. *)
Definition getSerializeSize (m : t) : Z :=
  uint32_t (Message.getSerializeSize (super m) + ssize (text m) + ssize (type m)).
End WithExternals.
End TextMessage.

(** ** [class ScreenshotMessage] *)

Module ScreenshotMessage.
Section WithExternals.
Context `{Externals}.

Record t := {
  super : Message.t;
  ready : bool  (* non-serializable *)
}.

Definition set_super v m := {| super := v; ready := ready m |}.
Definition set_ready v m := {| super := super m; ready := v |}.

Definition serialize (m : t) : stream := Message.serialize (super m).

Definition deserialize : Deser t :=
  on_super super set_super Message.deserialize.

Definition wf (m : t) : Prop := Message.wf (super m).

(** Modelled from the spec: the override is declared and defined in
    neither file; the size of the base class plus the sizes of the fields
    this class writes, in [uint32_t]. *)
Definition getSerializeSize (m : t) : Z :=
  Message.getSerializeSize (super m).
End WithExternals.
End ScreenshotMessage.

(** ** [class ResponseMessage] *)

Module ResponseMessage.
Section WithExternals.
Context `{Externals}.

Record t := {
  super : Message.t;
  text : list string
}.

Definition set_super v m := {| super := v; text := text m |}.
Definition set_text v m := {| super := super m; text := v |}.

Definition serialize (m : t) : stream :=
  Message.serialize (super m) ++
  write (text m).

Definition deserialize : Deser t :=
  on_super super set_super Message.deserialize ;;
  rd set_text.

Definition wf (m : t) : Prop :=
  Message.wf (super m) /\ valid (text m).

(** Modelled from the spec: the override is declared and defined in
    neither file; the size of the base class plus the sizes of the fields
    this class writes, in [uint32_t]. *)
Definition getSerializeSize (m : t) : Z :=
  uint32_t (Message.getSerializeSize (super m) + ssize (text m)).
End WithExternals.
End ResponseMessage.

(** ** [class QueryMessage] *)

Module QueryMessage.
Inductive QueryType := Unknown | ClientName | RootNodes | AllNodes.

Definition QueryType_value (e : QueryType) : Z :=
  match e with Unknown => 0 | ClientName => 1 | RootNodes => 2 | AllNodes => 3 end.

Section WithExternals.
Context `{Externals}.

(** [query_type] is the member [msProtocol.cpp] writes; like every enum
    member it holds the [int] under the enum. *)
Record t := {
  super : Message.t;
  query_type : Z;
  ready : bool;  (* non-serializable *)
  response : MessagePtr
}.

Definition set_super v m :=
  {| super := v; query_type := query_type m;
     ready := ready m; response := response m |}.
Definition set_query_type v m :=
  {| super := super m; query_type := v;
     ready := ready m; response := response m |}.
Definition set_ready v m :=
  {| super := super m; query_type := query_type m;
     ready := v; response := response m |}.
Definition set_response v m :=
  {| super := super m; query_type := query_type m;
     ready := ready m; response := v |}.

Definition serialize (m : t) : stream :=
  Message.serialize (super m) ++
  write (query_type m).

Definition deserialize : Deser t :=
  on_super super set_super Message.deserialize ;;
  rd set_query_type.

Definition wf (m : t) : Prop :=
  Message.wf (super m) /\ valid (query_type m).

(** Modelled from the spec: the override is declared and defined in
    neither file; the size of the base class plus the sizes of the fields
    this class writes, in [uint32_t]. *)
Definition getSerializeSize (m : t) : Z :=
  uint32_t (Message.getSerializeSize (super m) + ssize (query_type m)).
End WithExternals.
End QueryMessage.

(** ** [class PollMessage] *)

Module PollMessage.
Inductive PollType := Unknown | SceneUpdate.

Definition PollType_value (e : PollType) : Z :=
  match e with Unknown => 0 | SceneUpdate => 1 end.

Section WithExternals.
Context `{Externals}.

(** [poll_type] is the member [msProtocol.cpp] writes. *)
Record t := {
  super : Message.t;
  poll_type : Z;
  ready : bool  (* non-serializable *)
}.

Definition set_super v m :=
  {| super := v; poll_type := poll_type m; ready := ready m |}.
Definition set_poll_type v m :=
  {| super := super m; poll_type := v; ready := ready m |}.
Definition set_ready v m :=
  {| super := super m; poll_type := poll_type m; ready := v |}.

Definition serialize (m : t) : stream :=
  Message.serialize (super m) ++
  write (poll_type m).

Definition deserialize : Deser t :=
  on_super super set_super Message.deserialize ;;
  rd set_poll_type.

Definition wf (m : t) : Prop :=
  Message.wf (super m) /\ valid (poll_type m).

(** Modelled from the spec: the override is declared and defined in
    neither file; the size of the base class plus the sizes of the fields
    this class writes, in [uint32_t]. *)
Definition getSerializeSize (m : t) : Z :=
  uint32_t (Message.getSerializeSize (super m) + ssize (poll_type m)).
End WithExternals.
End PollMessage.


(** ** The message classes together *)

(** The classes derived from [Message] that [msProtocol.h] declares, by the
    name each has before its [Message] suffix. *)
Definition message_classes : list string :=
  ["Get"; "Set"; "Delete"; "Fence"; "Text"; "Screenshot"; "Query"; "Response";
   "Poll"]%string.

Section Dispatch.
Context `{Externals}.

(** An object of one of the nine classes, as a [Message*] points to it. *)
Inductive AnyMessage :=
| AGet (m : GetMessage.t)
| ASet (m : SetMessage.t)
| ADelete (m : DeleteMessage.t)
| AFence (m : FenceMessage.t)
| AText (m : TextMessage.t)
| AScreenshot (m : ScreenshotMessage.t)
| AQuery (m : QueryMessage.t)
| AResponse (m : ResponseMessage.t)
| APoll (m : PollMessage.t).

(** The [Message] subobject. *)
Definition envelope (a : AnyMessage) : Message.t :=
  match a with
  | AGet m => GetMessage.super m
  | ASet m => SetMessage.super m
  | ADelete m => DeleteMessage.super m
  | AFence m => FenceMessage.super m
  | AText m => TextMessage.super m
  | AScreenshot m => ScreenshotMessage.super m
  | AQuery m => QueryMessage.super m
  | AResponse m => ResponseMessage.super m
  | APoll m => PollMessage.super m
  end.

Definition set_envelope (e : Message.t) (a : AnyMessage) : AnyMessage :=
  match a with
  | AGet m => AGet (GetMessage.set_super e m)
  | ASet m => ASet (SetMessage.set_super e m)
  | ADelete m => ADelete (DeleteMessage.set_super e m)
  | AFence m => AFence (FenceMessage.set_super e m)
  | AText m => AText (TextMessage.set_super e m)
  | AScreenshot m => AScreenshot (ScreenshotMessage.set_super e m)
  | AQuery m => AQuery (QueryMessage.set_super e m)
  | AResponse m => AResponse (ResponseMessage.set_super e m)
  | APoll m => APoll (PollMessage.set_super e m)
  end.

(** The virtual call [m->serialize(os)]. *)
Definition serialize (a : AnyMessage) : stream :=
  match a with
  | AGet m => GetMessage.serialize m
  | ASet m => SetMessage.serialize m
  | ADelete m => DeleteMessage.serialize m
  | AFence m => FenceMessage.serialize m
  | AText m => TextMessage.serialize m
  | AScreenshot m => ScreenshotMessage.serialize m
  | AQuery m => QueryMessage.serialize m
  | AResponse m => ResponseMessage.serialize m
  | APoll m => PollMessage.serialize m
  end.

(** Run a member function of one class on the sum. *)
Definition lift {O} (inj : O -> AnyMessage) (d : Deser O) (o : O) (inp : stream)
  : AnyMessage * stream * option exn :=
  let '(o', inp', e) := d o inp in (inj o', inp', e).

(** The virtual call [m->deserialize(is)]. *)
Definition deserialize : Deser AnyMessage :=
  fun a =>
    match a with
    | AGet m => lift AGet GetMessage.deserialize m
    | ASet m => lift ASet SetMessage.deserialize m
    | ADelete m => lift ADelete DeleteMessage.deserialize m
    | AFence m => lift AFence FenceMessage.deserialize m
    | AText m => lift AText TextMessage.deserialize m
    | AScreenshot m => lift AScreenshot ScreenshotMessage.deserialize m
    | AQuery m => lift AQuery QueryMessage.deserialize m
    | AResponse m => lift AResponse ResponseMessage.deserialize m
    | APoll m => lift APoll PollMessage.deserialize m
    end.

(** The virtual call [m->getSerializeSize()]. *)
Definition getSerializeSize (a : AnyMessage) : Z :=
  match a with
  | AGet m => GetMessage.getSerializeSize m
  | ASet m => SetMessage.getSerializeSize m
  | ADelete m => DeleteMessage.getSerializeSize m
  | AFence m => FenceMessage.getSerializeSize m
  | AText m => TextMessage.getSerializeSize m
  | AScreenshot m => ScreenshotMessage.getSerializeSize m
  | AQuery m => QueryMessage.getSerializeSize m
  | AResponse m => ResponseMessage.getSerializeSize m
  | APoll m => PollMessage.getSerializeSize m
  end.

(** What each class writes after the envelope. *)
Definition payload (a : AnyMessage) : stream :=
  match a with
  | AGet m =>
      write (GetMessage.flags m) ++ write (GetMessage.scene_settings m) ++
      write (GetMessage.refine_settings m)
  | ASet m => write (SetMessage.scene m)
  | ADelete m =>
      write (DeleteMessage.entities m) ++ write (DeleteMessage.materials m) ++
      write (DeleteMessage.instances m)
  | AFence m => write (FenceMessage.type m)
  | AText m => write (TextMessage.text m) ++ write (TextMessage.type m)
  | AScreenshot m => []
  | AQuery m => write (QueryMessage.query_type m)
  | AResponse m => write (ResponseMessage.text m)
  | APoll m => write (PollMessage.poll_type m)
  end.

(** What each class reads after the envelope. *)
Definition read_payload : Deser AnyMessage :=
  fun a =>
    match a with
    | AGet m =>
        lift AGet (rd GetMessage.set_flags ;; rd GetMessage.set_scene_settings ;;
                   rd GetMessage.set_refine_settings) m
    | ASet m => lift ASet (rd SetMessage.set_scene) m
    | ADelete m =>
        lift ADelete (rd DeleteMessage.set_entities ;; rd DeleteMessage.set_materials ;;
                      rd DeleteMessage.set_instances) m
    | AFence m => lift AFence (rd FenceMessage.set_type) m
    | AText m => lift AText (rd TextMessage.set_text ;; rd TextMessage.set_type) m
    | AScreenshot m => lift AScreenshot skip m
    | AQuery m => lift AQuery (rd QueryMessage.set_query_type) m
    | AResponse m => lift AResponse (rd ResponseMessage.set_text) m
    | APoll m => lift APoll (rd PollMessage.set_poll_type) m
    end.

(** Every field is a value of its C++ type that the encoding covers. *)
Definition wf (a : AnyMessage) : Prop :=
  match a with
  | AGet m => GetMessage.wf m
  | ASet m => SetMessage.wf m
  | ADelete m => DeleteMessage.wf m
  | AFence m => FenceMessage.wf m
  | AText m => TextMessage.wf m
  | AScreenshot m => ScreenshotMessage.wf m
  | AQuery m => QueryMessage.wf m
  | AResponse m => ResponseMessage.wf m
  | APoll m => PollMessage.wf m
  end.

(** Two objects of the same class. *)
Definition same_class (a b : AnyMessage) : bool :=
  match a, b with
  | AGet _, AGet _ | ASet _, ASet _ | ADelete _, ADelete _
  | AFence _, AFence _ | AText _, AText _ | AScreenshot _, AScreenshot _
  | AQuery _, AQuery _ | AResponse _, AResponse _ | APoll _, APoll _ => true
  | _, _ => false
  end.

(** The completion flag of the request classes; the others have none. *)
Definition ready (a : AnyMessage) : option bool :=
  match a with
  | AGet m => Some (GetMessage.ready m)
  | AScreenshot m => Some (ScreenshotMessage.ready m)
  | AQuery m => Some (QueryMessage.ready m)
  | APoll m => Some (PollMessage.ready m)
  | _ => None
  end.

Definition set_ready (b : bool) (a : AnyMessage) : AnyMessage :=
  match a with
  | AGet m => AGet (GetMessage.set_ready b m)
  | AScreenshot m => AScreenshot (ScreenshotMessage.set_ready b m)
  | AQuery m => AQuery (QueryMessage.set_ready b m)
  | APoll m => APoll (PollMessage.set_ready b m)
  | _ => a
  end.

(** [sent] with the members that never reach the wire ([ready], and the
    [response] of a query) taken from [mine], an object of the same class. *)
Definition with_local_state_of (mine sent : AnyMessage) : AnyMessage :=
  match mine, sent with
  | AGet r, AGet m => AGet (GetMessage.set_ready (GetMessage.ready r) m)
  | AScreenshot r, AScreenshot m =>
      AScreenshot (ScreenshotMessage.set_ready (ScreenshotMessage.ready r) m)
  | AQuery r, AQuery m =>
      AQuery (QueryMessage.set_response (QueryMessage.response r)
                (QueryMessage.set_ready (QueryMessage.ready r) m))
  | APoll r, APoll m => APoll (PollMessage.set_ready (PollMessage.ready r) m)
  | _, _ => sent
  end.
End Dispatch.

(** ** A reference encoding of the codec primitives *)

(** Modelled from the spec: the serializer templates are in a header that is
    not one of the two files.  "Fixed-width integers", "bit-flag structures (serialized as
    their underlying integer width)", "strings (length-prefixed)" and "ordered
    sequences of any serializable element (count-prefixed, elements in
    order)"; widths and byte order are "fixed by implementation choice", here
    little-endian with 32-bit counts.  The development below is generic in
    [Externals]; this instance shows that its assumptions can be met and
    evaluates the decoders on concrete streams. *)
Module Wire.

(** The first [n] bytes and the rest, or nothing when the stream is short. *)
Fixpoint take_bytes (n : nat) (inp : stream) : option (stream * stream) :=
  match n with
  | O => Some ([], inp)
  | S n' =>
      match inp with
      | [] => None
      | b :: inp' =>
          match take_bytes n' inp' with
          | Some (h, r) => Some (b :: h, r)
          | None => None
          end
      end
  end.

Definition read_uint (n : nat) (inp : stream) : option (Z * stream) :=
  match take_bytes n inp with
  | Some (h, r) => Some (le_combine h, r)
  | None => None
  end.

(** Two's complement reading of a 32-bit pattern. *)
Definition int32_of_bits (u : Z) : Z := if u <? 2 ^ 31 then u else u - 2 ^ 32.

Definition write_int (z : Z) : stream := le_split 4 z.

Definition read_int (inp : stream) : option (Z * stream) :=
  match read_uint 4 inp with
  | Some (u, r) => Some (int32_of_bits u, r)
  | None => None
  end.

Definition int_valid (z : Z) : Prop := - 2 ^ 31 <= z < 2 ^ 31.

Definition write_uint64 (z : Z) : stream := le_split 8 z.
Definition read_uint64 (inp : stream) : option (Z * stream) := read_uint 8 inp.
Definition uint64_valid (z : Z) : Prop := 0 <= z < 2 ^ 64.

(** Bit [i] of the storage unit is the [i]-th field. *)
Fixpoint bits_to_Z (l : list bool) : Z :=
  match l with
  | [] => 0
  | b :: t => Z.b2z b + 2 * bits_to_Z t
  end.

Definition GetFlags_of_bits (z : Z) : GetFlags :=
  {| get_transform := Z.testbit z 0; get_points := Z.testbit z 1;
     get_normals := Z.testbit z 2; get_tangents := Z.testbit z 3;
     get_uv0 := Z.testbit z 4; get_uv1 := Z.testbit z 5;
     get_colors := Z.testbit z 6; get_indices := Z.testbit z 7;
     get_material_ids := Z.testbit z 8; get_bones := Z.testbit z 9;
     get_blendshapes := Z.testbit z 10; apply_culling := Z.testbit z 11 |}.

Definition write_GetFlags (f : GetFlags) : stream :=
  le_split 4 (bits_to_Z (GetFlags_fields f)).

Definition read_GetFlags (inp : stream) : option (GetFlags * stream) :=
  match read_uint 4 inp with
  | Some (u, r) => Some (GetFlags_of_bits u, r)
  | None => None
  end.

Definition count_valid (n : nat) : Prop := Z.of_nat n < 2 ^ 32.

Definition write_string (s : string) : stream :=
  le_split 4 (Z.of_nat (String.length s)) ++ list_byte_of_string s.

Definition read_string (inp : stream) : option (string * stream) :=
  match read_uint 4 inp with
  | Some (n, r) =>
      match take_bytes (Z.to_nat n) r with
      | Some (h, r') => Some (string_of_list_byte h, r')
      | None => None
      end
  | None => None
  end.

Definition string_valid (s : string) : Prop := count_valid (String.length s).

Section Compound.
Context {A B : Type} {SA : Serializer A} {SB : Serializer B}.

(** A struct of two members, written one after the other. *)
Definition write_pair (p : A * B) : stream := write (fst p) ++ write (snd p).

Definition read_pair (inp : stream) : option (A * B * stream) :=
  match read inp with
  | Some (a, r) =>
      match read r with
      | Some (b, r') => Some ((a, b), r')
      | None => None
      end
  | None => None
  end.

Definition pair_valid (p : A * B) : Prop := valid (fst p) /\ valid (snd p).

Fixpoint read_elements (n : nat) (inp : stream) : option (list A * stream) :=
  match n with
  | O => Some ([], inp)
  | S n' =>
      match read inp with
      | Some (x, r) =>
          match read_elements n' r with
          | Some (xs, r') => Some (x :: xs, r')
          | None => None
          end
      | None => None
      end
  end.

Definition write_vector (xs : list A) : stream :=
  le_split 4 (Z.of_nat (List.length xs)) ++ flat_map write xs.

Definition read_vector (inp : stream) : option (list A * stream) :=
  match read_uint 4 inp with
  | Some (n, r) => read_elements (Z.to_nat n) r
  | None => None
  end.

Definition vector_valid (xs : list A) : Prop :=
  count_valid (List.length xs) /\ Forall valid xs.
End Compound.

(** *** The primitives meet the codec contract *)

Lemma take_bytes_app (h rest : stream) :
  take_bytes (List.length h) (h ++ rest) = Some (h, rest).
Proof.
  induction h as [|b h IH]; simpl; [reflexivity|].
  now rewrite IH.
Qed.

Lemma read_uint_le_split (n : nat) (z : Z) (rest : stream) :
  read_uint n (le_split n z ++ rest) = Some (z mod 2 ^ (Z.of_nat n * 8), rest).
Proof.
  unfold read_uint.
  rewrite <- (length_le_split n z) at 1.
  now rewrite take_bytes_app, le_combine_split.
Qed.

Lemma read_uint_small (n : nat) (z : Z) (rest : stream) :
  0 <= z < 2 ^ (Z.of_nat n * 8) ->
  read_uint n (le_split n z ++ rest) = Some (z, rest).
Proof.
  intros Hz. rewrite read_uint_le_split. now rewrite Z.mod_small.
Qed.

Lemma int32_of_bits_wrap (z : Z) :
  int_valid z -> int32_of_bits (z mod 2 ^ 32) = z.
Proof.
  unfold int_valid, int32_of_bits. intros Hz.
  destruct (Z.ltb_spec (z mod 2 ^ 32) (2 ^ 31)); Z.div_mod_to_equations; lia.
Qed.

Lemma read_write_int (z : Z) (rest : stream) :
  int_valid z -> read_int (write_int z ++ rest) = Some (z, rest).
Proof.
  intros Hz. unfold read_int, write_int.
  rewrite read_uint_le_split.
  change (2 ^ (Z.of_nat 4 * 8)) with (2 ^ 32).
  now rewrite int32_of_bits_wrap.
Qed.

Lemma read_write_uint64 (z : Z) (rest : stream) :
  uint64_valid z -> read_uint64 (write_uint64 z ++ rest) = Some (z, rest).
Proof.
  intros Hz. apply read_uint_small. exact Hz.
Qed.

Lemma GetFlags_of_bits_fields (f : GetFlags) :
  GetFlags_of_bits (bits_to_Z (GetFlags_fields f) mod 2 ^ 32) = f.
Proof.
  destruct f as [[] [] [] [] [] [] [] [] [] [] [] []]; reflexivity.
Qed.

Lemma read_write_GetFlags (f : GetFlags) (rest : stream) :
  True -> read_GetFlags (write_GetFlags f ++ rest) = Some (f, rest).
Proof.
  intros _. unfold read_GetFlags, write_GetFlags.
  rewrite read_uint_le_split.
  change (2 ^ (Z.of_nat 4 * 8)) with (2 ^ 32).
  now rewrite GetFlags_of_bits_fields.
Qed.

Lemma length_list_byte_of_string (s : string) :
  List.length (list_byte_of_string s) = String.length s.
Proof.
  unfold list_byte_of_string. rewrite length_map.
  induction s as [|c s IH]; simpl; congruence.
Qed.

Lemma read_write_string (s : string) (rest : stream) :
  string_valid s -> read_string (write_string s ++ rest) = Some (s, rest).
Proof.
  unfold string_valid, count_valid, read_string, write_string. intros Hs.
  rewrite <- app_assoc, read_uint_small by (change (2 ^ (Z.of_nat 4 * 8)) with (2 ^ 32); lia).
  rewrite Nat2Z.id, <- length_list_byte_of_string, take_bytes_app.
  now rewrite string_of_list_byte_of_string.
Qed.

Section CompoundLaws.
Context {A B : Type} {SA : Serializer A} {SB : Serializer B}.

Lemma read_write_pair (p : A * B) (rest : stream) :
  pair_valid p -> read_pair (write_pair p ++ rest) = Some (p, rest).
Proof.
  destruct p as [a b]. unfold pair_valid, read_pair, write_pair. simpl.
  intros [Ha Hb].
  now rewrite <- app_assoc, (read_write a) by assumption; rewrite (read_write b).
Qed.

Lemma read_elements_flat_map (xs : list A) (rest : stream) :
  Forall valid xs ->
  read_elements (List.length xs) (flat_map write xs ++ rest) = Some (xs, rest).
Proof.
  induction 1 as [|x xs Hx _ IH]; simpl; [reflexivity|].
  now rewrite <- app_assoc, (read_write x) by assumption; rewrite IH.
Qed.

Lemma read_write_vector (xs : list A) (rest : stream) :
  vector_valid xs -> read_vector (write_vector xs ++ rest) = Some (xs, rest).
Proof.
  unfold vector_valid, count_valid, read_vector, write_vector. intros [Hn Hxs].
  rewrite <- app_assoc, read_uint_small by (change (2 ^ (Z.of_nat 4 * 8)) with (2 ^ 32); lia).
  rewrite Nat2Z.id. now apply read_elements_flat_map.
Qed.
End CompoundLaws.

Definition int_codec : Serializer Z :=
  {| valid := int_valid; write := write_int; read := read_int;
     read_write := read_write_int |}.

Definition uint64_codec : Serializer Z :=
  {| valid := uint64_valid; write := write_uint64; read := read_uint64;
     read_write := read_write_uint64 |}.

Definition GetFlags_codec : Serializer GetFlags :=
  {| valid := fun _ => True; write := write_GetFlags; read := read_GetFlags;
     read_write := read_write_GetFlags |}.

Definition string_codec : Serializer string :=
  {| valid := string_valid; write := write_string; read := read_string;
     read_write := read_write_string |}.

Definition pair_codec {A B} (SA : Serializer A) (SB : Serializer B)
  : Serializer (A * B) :=
  {| valid := pair_valid; write := write_pair; read := read_pair;
     read_write := read_write_pair |}.

Definition vector_codec {A} (SA : Serializer A) : Serializer (list A) :=
  {| valid := vector_valid; write := write_vector; read := read_vector;
     read_write := read_write_vector |}.

(** A build for protocol version [version]: timestamps are 64-bit counts,
    settings are [int]s, an identifier is a name with an [int], a scene is a
    length-prefixed blob. *)
Definition externals (version : Z) : Externals :=
  {| msProtocolVersion := version;
     Timestamp := Z;
     SceneSettings := Z;
     MeshRefineSettings := Z;
     Scene := string;
     Identifier := string * Z;
     int_serializer := int_codec;
     GetFlags_serializer := GetFlags_codec;
     Timestamp_serializer := uint64_codec;
     SceneSettings_serializer := int_codec;
     MeshRefineSettings_serializer := int_codec;
     Scene_serializer := string_codec;
     string_serializer := string_codec;
     Identifiers_serializer := vector_codec (pair_codec string_codec int_codec);
     strings_serializer := vector_codec string_codec |}.
End Wire.

(** ** Properties of the decoding steps *)

Section Steps.
Context {O : Type}.

Lemma rd_write {T} `{Serializer T} (set : T -> O -> O) (o : O) (x : T) (rest : stream) :
  valid x -> rd set o (write x ++ rest) = (set x o, rest, None).
Proof.
  intros Hx. unfold rd. now rewrite read_write.
Qed.

Lemma andThen_done (a b : Deser O) (o o' : O) (inp inp' : stream) :
  a o inp = (o', inp', None) -> (a ;; b) o inp = b o' inp'.
Proof.
  intros Ha. unfold andThen. now rewrite Ha.
Qed.

Lemma andThen_thrown (a b : Deser O) (o o' : O) (inp inp' : stream) (e : exn) :
  a o inp = (o', inp', Some e) -> (a ;; b) o inp = (o', inp', Some e).
Proof.
  intros Ha. unfold andThen. now rewrite Ha.
Qed.

Lemma andThen_assoc (a b c : Deser O) (o : O) (inp : stream) :
  ((a ;; b) ;; c) o inp = (a ;; (b ;; c)) o inp.
Proof.
  unfold andThen. destruct (a o inp) as [[o1 inp1] [e|]]; reflexivity.
Qed.

Lemma on_super_done {P} (get : O -> P) (set : P -> O -> O) (d : Deser P)
      (o : O) (p : P) (inp inp' : stream) (r : option exn) :
  d (get o) inp = (p, inp', r) -> on_super get set d o inp = (set p o, inp', r).
Proof.
  intros Hd. unfold on_super. now rewrite Hd.
Qed.
End Steps.

(** ** Properties of [Message] *)

Section MessageFacts.
Context `{Externals}.

(** A stream that starts with another version: the object takes the decoded
    number, the exception leaves, and the stream stands right after that
    number. *)
Lemma Message_deserialize_mismatch (m : Message.t) (inp inp' : stream) (v : Z) :
  read inp = Some (v, inp') -> v <> msProtocolVersion ->
  Message.deserialize m inp =
    (Message.set_protocol_version v m, inp', Some Message.version_error).
Proof.
  intros Hread Hv. unfold Message.deserialize.
  do 3 (apply andThen_thrown).
  erewrite andThen_done by (unfold rd; rewrite Hread; reflexivity).
  unfold throw_unless. simpl.
  destruct (Z.eqb_spec v msProtocolVersion); [contradiction | reflexivity].
Qed.

(** A stream that starts with an envelope of the compiled version. *)
Lemma Message_deserialize_serialize (m0 m : Message.t) (rest : stream) :
  Message.wf m -> Message.protocol_version m = msProtocolVersion ->
  Message.deserialize m0 (Message.serialize m ++ rest) = (m, rest, None).
Proof.
  intros (Hv & Hs & Hm & Ht) Hpv.
  unfold Message.deserialize, Message.serialize. rewrite <- !app_assoc.
  unfold andThen at 1 2 3 4.
  rewrite (rd_write _ _ _ _ Hv). unfold throw_unless. simpl.
  rewrite Hpv, Z.eqb_refl.
  rewrite (rd_write _ _ _ _ Hs), (rd_write _ _ _ _ Hm), (rd_write _ _ _ _ Ht).
  destruct m; simpl in *; subst; reflexivity.
Qed.

(** Only the version check throws a [runtime_error], and it does so right
    after the first read. *)
Lemma Message_deserialize_thrown (m m' : Message.t) (inp inp' : stream) (what : string) :
  Message.deserialize m inp = (m', inp', Some (runtime_error what)) ->
  exists v, read inp = Some (v, inp') /\ v <> msProtocolVersion /\
            m' = Message.set_protocol_version v m /\
            runtime_error what = Message.version_error.
Proof.
  unfold Message.deserialize, andThen, rd, throw_unless.
  destruct (read inp) as [[v inp1]|] eqn:Hr1; [ | discriminate ].
  simpl. destruct (Z.eqb_spec v msProtocolVersion) as [Heq|Hne].
  - destruct (read inp1) as [[s inp2]|]; [ | discriminate ].
    destruct (read inp2) as [[i inp3]|]; [ | discriminate ].
    destruct (read inp3) as [[ts inp4]|]; discriminate.
  - intros Heq. injection Heq as <- <- <-. exists v. auto.
Qed.
End MessageFacts.

(** ** Properties of the derived classes *)

Section ClassFacts.
Context `{Externals}.

Lemma serialize_envelope_payload (a : AnyMessage) :
  serialize a = Message.serialize (envelope a) ++ payload a.
Proof.
  destruct a; simpl; try reflexivity.
  unfold ScreenshotMessage.serialize. now rewrite app_nil_r.
Qed.

(** Every [deserialize] is [super::deserialize] and then the reads of its own
    fields. *)
Lemma deserialize_envelope_payload (a : AnyMessage) (inp : stream) :
  deserialize a inp =
    (on_super envelope set_envelope Message.deserialize ;; read_payload) a inp.
Proof.
  destruct a as [m|m|m|m|m|m|m|m|m]; simpl;
    unfold lift, GetMessage.deserialize, SetMessage.deserialize,
      DeleteMessage.deserialize, FenceMessage.deserialize,
      TextMessage.deserialize, ScreenshotMessage.deserialize,
      QueryMessage.deserialize, ResponseMessage.deserialize,
      PollMessage.deserialize, andThen, on_super, skip; simpl;
    destruct (Message.deserialize _ inp) as [[p inp1] [e|]]; simpl; try reflexivity;
    unfold rd;
    repeat match goal with
      | |- context [match read ?s with _ => _ end] =>
          destruct (read s) as [[? ?]|]; simpl; try reflexivity
      end.
Qed.

(** A version mismatch met by any class: nothing but [protocol_version] is
    assigned and nothing but that number is consumed. *)
Lemma deserialize_mismatch (a : AnyMessage) (inp inp' : stream) (v : Z) :
  read inp = Some (v, inp') -> v <> msProtocolVersion ->
  deserialize a inp =
    (set_envelope (Message.set_protocol_version v (envelope a)) a, inp',
     Some Message.version_error).
Proof.
  intros Hread Hv. rewrite deserialize_envelope_payload.
  apply andThen_thrown. apply on_super_done.
  now apply Message_deserialize_mismatch.
Qed.

Lemma read_payload_payload (mine m : AnyMessage) (rest : stream) :
  same_class mine m = true -> wf m -> envelope mine = envelope m ->
  read_payload mine (payload m ++ rest) = (with_local_state_of mine m, rest, None).
Proof.
  destruct mine as [r|r|r|r|r|r|r|r|r], m as [m|m|m|m|m|m|m|m|m];
    try discriminate; intros _; simpl; intros Hwf Henv; unfold lift, andThen, skip;
    rewrite <- ?app_assoc.
  - destruct Hwf as (_ & H1 & H2 & H3).
    rewrite (rd_write _ _ _ _ H1), (rd_write _ _ _ _ H2), (rd_write _ _ _ _ H3).
    destruct r, m; simpl in *; subst; reflexivity.
  - destruct Hwf as (_ & H1). rewrite (rd_write _ _ _ _ H1).
    destruct r, m; simpl in *; subst; reflexivity.
  - destruct Hwf as (_ & H1 & H2 & H3).
    rewrite (rd_write _ _ _ _ H1), (rd_write _ _ _ _ H2), (rd_write _ _ _ _ H3).
    destruct r, m; simpl in *; subst; reflexivity.
  - destruct Hwf as (_ & H1). rewrite (rd_write _ _ _ _ H1).
    destruct r, m; simpl in *; subst; reflexivity.
  - destruct Hwf as (_ & H1 & H2).
    rewrite (rd_write _ _ _ _ H1), (rd_write _ _ _ _ H2).
    destruct r, m; simpl in *; subst; reflexivity.
  - destruct r, m; simpl in *; subst; reflexivity.
  - destruct Hwf as (_ & H1). rewrite (rd_write _ _ _ _ H1).
    destruct r, m; simpl in *; subst; reflexivity.
  - destruct Hwf as (_ & H1). rewrite (rd_write _ _ _ _ H1).
    destruct r, m; simpl in *; subst; reflexivity.
  - destruct Hwf as (_ & H1). rewrite (rd_write _ _ _ _ H1).
    destruct r, m; simpl in *; subst; reflexivity.
Qed.

Lemma wf_envelope (a : AnyMessage) : wf a -> Message.wf (envelope a).
Proof.
  destruct a; simpl; intros Hwf; try apply Hwf.
Qed.

Lemma same_class_set_envelope (e : Message.t) (a b : AnyMessage) :
  same_class (set_envelope e a) b = same_class a b.
Proof.
  destruct a, b; reflexivity.
Qed.

Lemma envelope_set_envelope (e : Message.t) (a : AnyMessage) :
  envelope (set_envelope e a) = e.
Proof.
  destruct a; reflexivity.
Qed.

Lemma with_local_state_of_set_envelope (e : Message.t) (a b : AnyMessage) :
  with_local_state_of (set_envelope e a) b = with_local_state_of a b.
Proof.
  destruct a, b; reflexivity.
Qed.

(** The full round trip into a receiving object of the same class. *)
Lemma deserialize_serialize (mine m : AnyMessage) (rest : stream) :
  same_class mine m = true -> wf m ->
  Message.protocol_version (envelope m) = msProtocolVersion ->
  deserialize mine (serialize m ++ rest) = (with_local_state_of mine m, rest, None).
Proof.
  intros Hc Hwf Hpv.
  rewrite deserialize_envelope_payload, serialize_envelope_payload, <- app_assoc.
  erewrite andThen_done.
  2:{ apply on_super_done. apply Message_deserialize_serialize;
      [ now apply wf_envelope | exact Hpv ]. }
  rewrite read_payload_payload.
  - now rewrite with_local_state_of_set_envelope.
  - now rewrite same_class_set_envelope.
  - exact Hwf.
  - apply envelope_set_envelope.
Qed.
(** The same bytes with another version in front: the gate stops the decoder
    after the version, in front of the three other envelope fields. *)
Lemma deserialize_envelope_mismatch (a : AnyMessage) (e : Message.t) (rest : stream) :
  valid (Message.protocol_version e) ->
  Message.protocol_version e <> msProtocolVersion ->
  deserialize a
    (write (Message.protocol_version e) ++ write (Message.session_id e) ++
     write (Message.message_id e) ++ write (Message.timestamp_send e) ++ rest) =
    (set_envelope (Message.set_protocol_version (Message.protocol_version e) (envelope a)) a,
     write (Message.session_id e) ++ write (Message.message_id e) ++
     write (Message.timestamp_send e) ++ rest,
     Some Message.version_error).
Proof.
  intros Hv Hne. apply deserialize_mismatch; [ | exact Hne ].
  now apply read_write.
Qed.
End ClassFacts.

(** ** Sizes *)

Lemma uint32_t_small (z : Z) : 0 <= z < 2 ^ 32 -> uint32_t z = z.
Proof.
  intros Hz. unfold uint32_t. now apply Z.mod_small.
Qed.

Lemma uint32_t_range (z : Z) : 0 <= uint32_t z < 2 ^ 32.
Proof.
  unfold uint32_t. apply Z.mod_pos_bound. reflexivity.
Qed.

Lemma uint32_t_add_l (a b : Z) : uint32_t (uint32_t a + b) = uint32_t (a + b).
Proof.
  unfold uint32_t. apply Zplus_mod_idemp_l.
Qed.

Section SizeFacts.
Context `{Externals}.

Lemma Message_getSerializeSize_length (m : Message.t) :
  Message.getSerializeSize m = uint32_t (Z.of_nat (List.length (Message.serialize m))).
Proof.
  unfold Message.getSerializeSize, Message.serialize, ssize.
  rewrite !length_app. f_equal. lia.
Qed.

(** Whatever the message, the modelled size is the written length reduced to
    32 bits. *)
Lemma getSerializeSize_length (a : AnyMessage) :
  getSerializeSize a = uint32_t (Z.of_nat (List.length (serialize a))).
Proof.
  destruct a as [m|m|m|m|m|m|m|m|m]; simpl;
    unfold GetMessage.getSerializeSize, GetMessage.serialize,
      SetMessage.getSerializeSize, SetMessage.serialize,
      DeleteMessage.getSerializeSize, DeleteMessage.serialize,
      FenceMessage.getSerializeSize, FenceMessage.serialize,
      TextMessage.getSerializeSize, TextMessage.serialize,
      ScreenshotMessage.getSerializeSize, ScreenshotMessage.serialize,
      QueryMessage.getSerializeSize, QueryMessage.serialize,
      ResponseMessage.getSerializeSize, ResponseMessage.serialize,
      PollMessage.getSerializeSize, PollMessage.serialize, ssize;
    rewrite Message_getSerializeSize_length;
    rewrite <- ?Z.add_assoc, ?uint32_t_add_l, ?length_app;
    try reflexivity; f_equal; lia.
Qed.
End SizeFacts.

(** ** Concrete messages of the reference build *)

Module Examples.

Definition version : Z := 123.

Definition build : Externals := Wire.externals version.

(** A freshly constructed envelope: the compiled version, no session, and a
    zero identifier and timestamp. *)
Definition fresh : @Message.t build := @Message.Build_t build version (-1) 0 0.

(** An envelope as a peer of the same build sends it. *)
Definition sent : @Message.t build := @Message.Build_t build version 5 7 1000.

(** The same envelope from a peer one version ahead. *)
Definition sent_ahead : @Message.t build :=
  @Message.Build_t build (version + 1) 5 7 1000.

Definition fence_mine : @FenceMessage.t build := @FenceMessage.Build_t build fresh 0.
Definition fence_sent : @FenceMessage.t build := @FenceMessage.Build_t build sent 1.
Definition fence_ahead : @FenceMessage.t build :=
  @FenceMessage.Build_t build sent_ahead 1.

Definition delete_mine : @DeleteMessage.t build :=
  @DeleteMessage.Build_t build fresh [] [] [].

(** Entities [3, 1, 2], one material and no instance. *)
Definition delete_sent : @DeleteMessage.t build :=
  @DeleteMessage.Build_t build sent
    [("c", 3); ("a", 1); ("b", 2)]%string [("wood", 8)]%string [].

Definition query_mine : @QueryMessage.t build :=
  @QueryMessage.Build_t build fresh 0 false None.

(** A resolved query: ready, with a response attached. *)
Definition query_resolved : @QueryMessage.t build :=
  @QueryMessage.Build_t build sent 2 true (Some 1%nat).

Definition text_sent : @TextMessage.t build :=
  @TextMessage.Build_t build sent "hello" 1.

(** A response of [n] empty strings. *)
Definition response_of_empty_strings (n : nat) : @ResponseMessage.t build :=
  @ResponseMessage.Build_t build sent (repeat EmptyString n).

Lemma wf_sent : @Message.wf build sent.
Proof.
  unfold Message.wf; simpl. unfold Wire.int_valid, Wire.uint64_valid, version. lia.
Qed.

Lemma wf_fence_sent : @wf build (AFence fence_sent).
Proof.
  split; [exact wf_sent | simpl; unfold Wire.int_valid; lia].
Qed.

Lemma wf_delete_sent : @DeleteMessage.wf build delete_sent.
Proof.
  split; [exact wf_sent | ].
  simpl. unfold Wire.vector_valid, Wire.count_valid; simpl.
  repeat split; try lia;
    repeat constructor; simpl;
    unfold Wire.string_valid, Wire.count_valid, Wire.int_valid; simpl; lia.
Qed.

Lemma wf_text_sent : @wf build (AText text_sent).
Proof.
  split; [exact wf_sent | ].
  simpl. unfold Wire.string_valid, Wire.count_valid, Wire.int_valid; simpl. lia.
Qed.

Lemma length_flat_map_repeat {A B} (f : A -> list B) (x : A) (n : nat) :
  List.length (flat_map f (repeat x n)) = (n * List.length (f x))%nat.
Proof.
  induction n as [|n IH]; simpl; [reflexivity|].
  rewrite length_app, IH. lia.
Qed.

(** A response of [n] empty strings takes more than [4 * n] bytes. *)
Lemma length_response_of_empty_strings (n : nat) :
  4 * Z.of_nat n <
  Z.of_nat (List.length (@serialize build (AResponse (response_of_empty_strings n)))).
Proof.
  unfold serialize, ResponseMessage.serialize, response_of_empty_strings.
  cbn [ResponseMessage.text ResponseMessage.super].
  rewrite length_app.
  change (@write (list string) _) with (@Wire.write_vector string Wire.string_codec).
  unfold Wire.write_vector. rewrite length_app, length_le_split, length_flat_map_repeat.
  change (List.length (@write string Wire.string_codec EmptyString)) with 4%nat.
  lia.
Qed.

Lemma wf_response_of_empty_strings (n : nat) :
  Z.of_nat n < 2 ^ 32 -> @wf build (AResponse (response_of_empty_strings n)).
Proof.
  intros Hn. split; [exact wf_sent | ].
  cbn [ResponseMessage.text response_of_empty_strings].
  split.
  - unfold Wire.count_valid. now rewrite repeat_length.
  - apply Forall_forall. intros s Hs. apply repeat_spec in Hs. subst s.
    unfold valid; simpl. unfold Wire.string_valid, Wire.count_valid. simpl. lia.
Qed.
End Examples.

(** ** The protocol's properties *)

(** C1 (as the code has it).  For every input stream whose first decoded
    integer differs from [msProtocolVersion], [deserialize] of every class
    fails with the protocol-version error; the only member assigned is
    [protocol_version], and the stream stands immediately after that integer:
    [session_id], [message_id], the timestamp and the whole payload are
    unread. *)
Theorem C1_mismatch_stops_after_version `{Externals}
    (a : AnyMessage) (inp inp' : stream) (v : Z) :
  read inp = Some (v, inp') -> v <> msProtocolVersion ->
  deserialize a inp =
    (set_envelope (Message.set_protocol_version v (envelope a)) a, inp',
     Some Message.version_error).
Proof.
  intros Hread Hv.
  (* super::deserialize runs first, in every class *)
  rewrite deserialize_envelope_payload.
  (* its exception skips the reads of the payload *)
  apply andThen_thrown. apply on_super_done.
  (* and it is thrown between the first read and the second *)
  unfold Message.deserialize.
  do 3 apply andThen_thrown.
  erewrite andThen_done by (unfold rd; rewrite Hread; reflexivity).
  unfold throw_unless. simpl.
  destruct (Z.eqb_spec v msProtocolVersion); [contradiction | reflexivity].
Qed.

Lemma C1_mismatch_stops_after_version_witness :
  let inp := @serialize Examples.build (AFence Examples.fence_ahead) in
  let inp' := skipn 4 inp in
  @read Z (@int_serializer Examples.build) inp = Some (124, inp') /\
  124 <> @msProtocolVersion Examples.build /\
  @deserialize Examples.build (AFence Examples.fence_mine) inp =
    (AFence (@FenceMessage.Build_t Examples.build
               (@Message.Build_t Examples.build 124 (-1) 0 0) 0),
     inp', Some Message.version_error).
Proof.
  intros inp inp'.
  assert (Hread : @read Z (@int_serializer Examples.build) inp = Some (124, inp'))
    by (vm_compute; reflexivity).
  assert (Hne : 124 <> @msProtocolVersion Examples.build)
    by (vm_compute; discriminate).
  split; [exact Hread | split; [exact Hne | ]].
  exact (@C1_mismatch_stops_after_version Examples.build
           (AFence Examples.fence_mine) inp inp' 124 Hread Hne).
Defined.

(** C1 (as stated) fails: after the rejection of a fence sent by a peer one
    version ahead, the unread bytes are not the payload alone; the three
    envelope fields behind the version are still in front of it. *)
Lemma C1_position_after_header_counterexample :
  let sent := AFence Examples.fence_ahead in
  let after := snd (fst (@deserialize Examples.build (AFence Examples.fence_mine)
                           (@serialize Examples.build sent))) in
  snd (@deserialize Examples.build (AFence Examples.fence_mine)
         (@serialize Examples.build sent)) = Some Message.version_error /\
  after <> @payload Examples.build sent /\
  after = @write Z (@int_serializer Examples.build) 5 ++
          @write Z (@int_serializer Examples.build) 7 ++
          @write Z (@Timestamp_serializer Examples.build) 1000 ++
          @payload Examples.build sent.
Proof.
  intros sent after. split; [reflexivity | split; [ | reflexivity]].
  intros Heq. apply (f_equal (@List.length byte)) in Heq.
  vm_compute in Heq. discriminate Heq.
Qed.

(** C9.  When [Message::deserialize] throws the version-mismatch error, the
    object's [protocol_version] holds the integer decoded from the stream,
    which is not the compiled version, and [session_id], [message_id] and
    the timestamp are what they were before the call. *)
Theorem C9_rejected_object_keeps_wire_version `{Externals}
    (m m' : Message.t) (inp inp' : stream) :
  Message.deserialize m inp = (m', inp', Some Message.version_error) ->
  read inp = Some (Message.protocol_version m', inp') /\
  Message.protocol_version m' <> msProtocolVersion /\
  Message.session_id m' = Message.session_id m /\
  Message.message_id m' = Message.message_id m /\
  Message.timestamp_send m' = Message.timestamp_send m.
Proof.
  intros Hd. apply Message_deserialize_thrown in Hd.
  destruct Hd as (v & Hread & Hv & -> & _). simpl. auto.
Qed.

Lemma C9_rejected_object_keeps_wire_version_witness :
  let inp := @Message.serialize Examples.build Examples.sent_ahead in
  let m' := @Message.Build_t Examples.build 124 (-1) 0 0 in
  @Message.deserialize Examples.build Examples.fresh inp =
    (m', skipn 4 inp, Some Message.version_error) /\
  Message.protocol_version m' <> @msProtocolVersion Examples.build /\
  Message.session_id m' = Message.session_id Examples.fresh.
Proof.
  intros inp m'.
  assert (Hd : @Message.deserialize Examples.build Examples.fresh inp =
               (m', skipn 4 inp, Some Message.version_error))
    by reflexivity.
  destruct (@C9_rejected_object_keeps_wire_version Examples.build
              Examples.fresh m' inp (skipn 4 inp) Hd) as (_ & Hv & Hs & _).
  split; [exact Hd | split; [exact Hv | exact Hs]].
Defined.

(** C4.  Every class writes [protocol_version], [session_id], [message_id]
    and the send timestamp, in that order, and only then its payload.  From
    a stream that carries the four fields in that order, [deserialize] takes
    [protocol_version] first; when it is the compiled version the three
    others are assigned in the same order and the payload is read from what
    follows, and otherwise the decoder stops in front of [session_id]. *)
Theorem C4_envelope_order `{Externals}
    (a : AnyMessage) (e : Message.t) (rest : stream) :
  Message.wf e ->
  serialize a =
    write (Message.protocol_version (envelope a)) ++
    write (Message.session_id (envelope a)) ++
    write (Message.message_id (envelope a)) ++
    write (Message.timestamp_send (envelope a)) ++
    payload a
  /\
  deserialize a
    (write (Message.protocol_version e) ++ write (Message.session_id e) ++
     write (Message.message_id e) ++ write (Message.timestamp_send e) ++ rest) =
    (if Message.protocol_version e =? msProtocolVersion
     then read_payload (set_envelope e a) rest
     else (set_envelope
             (Message.set_protocol_version (Message.protocol_version e) (envelope a)) a,
           write (Message.session_id e) ++ write (Message.message_id e) ++
           write (Message.timestamp_send e) ++ rest,
           Some Message.version_error)).
Proof.
  intros Hwf. split.
  - rewrite serialize_envelope_payload. unfold Message.serialize.
    now rewrite <- !app_assoc.
  - destruct (Z.eqb_spec (Message.protocol_version e) msProtocolVersion) as [Hpv|Hpv].
    + rewrite deserialize_envelope_payload.
      apply andThen_done. apply on_super_done.
      rewrite <- (Message_deserialize_serialize (envelope a) e rest Hwf Hpv).
      unfold Message.serialize. now rewrite <- !app_assoc.
    + apply deserialize_envelope_mismatch; [ apply Hwf | exact Hpv ].
Qed.

Lemma C4_envelope_order_witness :
  @Message.wf Examples.build Examples.sent /\
  @deserialize Examples.build (AFence Examples.fence_mine)
    (@write Z (@int_serializer Examples.build) 123 ++
     @write Z (@int_serializer Examples.build) 5 ++
     @write Z (@int_serializer Examples.build) 7 ++
     @write Z (@Timestamp_serializer Examples.build) 1000 ++ [Byte.x02]) =
    @read_payload Examples.build
      (AFence (@FenceMessage.Build_t Examples.build Examples.sent 0)) [Byte.x02].
Proof.
  split; [exact Examples.wf_sent | ].
  exact (proj2 (@C4_envelope_order Examples.build (AFence Examples.fence_mine)
                  Examples.sent [Byte.x02] Examples.wf_sent)).
Defined.

(** C5.  A [DeleteMessage] holds three separate sequences of identifiers,
    [entities], [materials] and [instances].  Serialized and then
    deserialized, a message of the compiled version comes back, and whenever
    the deserialization returns each of the three sequences of the object
    is equal to the one sent, element for element and in the same order. *)
Theorem C5_delete_sequences_keep_order `{Externals}
    (mine m : DeleteMessage.t) (rest : stream) :
  DeleteMessage.wf m ->
  (Message.protocol_version (DeleteMessage.super m) = msProtocolVersion ->
   DeleteMessage.deserialize mine (DeleteMessage.serialize m ++ rest) =
     (m, rest, None)) /\
  (forall m' inp',
     DeleteMessage.deserialize mine (DeleteMessage.serialize m ++ rest) =
       (m', inp', None) ->
     DeleteMessage.entities m' = DeleteMessage.entities m /\
     DeleteMessage.materials m' = DeleteMessage.materials m /\
     DeleteMessage.instances m' = DeleteMessage.instances m).
Proof.
  intros Hwf.
  assert (Hok : Message.protocol_version (DeleteMessage.super m) = msProtocolVersion ->
                DeleteMessage.deserialize mine (DeleteMessage.serialize m ++ rest) =
                  (m, rest, None)).
  { intros Hpv.
    pose proof (deserialize_serialize (ADelete mine) (ADelete m) rest
                  eq_refl Hwf Hpv) as Hrt.
    simpl in Hrt. unfold lift in Hrt.
    destruct (DeleteMessage.deserialize mine (DeleteMessage.serialize m ++ rest))
      as [[m' inp'] e].
    now injection Hrt as -> -> ->. }
  split; [exact Hok | ].
  intros m' inp' Hd.
  destruct (Z.eq_dec (Message.protocol_version (DeleteMessage.super m))
              msProtocolVersion) as [Hpv|Hpv].
  - rewrite (Hok Hpv) in Hd. now injection Hd as <- _.
  - exfalso.
    pose proof (serialize_envelope_payload (ADelete m)) as Hs. simpl in Hs.
    unfold Message.serialize in Hs.
    pose proof (deserialize_envelope_mismatch (ADelete mine) (DeleteMessage.super m)
                  (payload (ADelete m) ++ rest) (proj1 (proj1 Hwf)) Hpv) as Hm.
    simpl in Hm. unfold lift in Hm.
    rewrite Hs, <- !app_assoc in Hd. simpl in Hd. rewrite <- !app_assoc in Hm.
    rewrite Hd in Hm. discriminate Hm.
Qed.

Lemma C5_delete_sequences_keep_order_witness :
  @DeleteMessage.wf Examples.build Examples.delete_sent /\
  exists m',
    @DeleteMessage.deserialize Examples.build Examples.delete_mine
      (@DeleteMessage.serialize Examples.build Examples.delete_sent ++ []) =
      (m', [], None) /\
    DeleteMessage.entities m' = [("c", 3); ("a", 1); ("b", 2)]%string /\
    DeleteMessage.materials m' = [("wood", 8)]%string /\
    DeleteMessage.instances m' = [].
Proof.
  split; [exact Examples.wf_delete_sent | ].
  exists Examples.delete_sent.
  split; [ | repeat split ].
  exact (proj1 (@C5_delete_sequences_keep_order Examples.build Examples.delete_mine
                  Examples.delete_sent [] Examples.wf_delete_sent) eq_refl).
Defined.

(** [deserialize] never assigns the completion flag, whether it returns or
    throws. *)
Lemma ready_deserialize `{Externals} (a : AnyMessage) (inp : stream) :
  ready (fst (fst (deserialize a inp))) = ready a.
Proof.
  destruct a as [m|m|m|m|m|m|m|m|m]; simpl;
    unfold lift, GetMessage.deserialize, SetMessage.deserialize,
      DeleteMessage.deserialize, FenceMessage.deserialize,
      TextMessage.deserialize, ScreenshotMessage.deserialize,
      QueryMessage.deserialize, ResponseMessage.deserialize,
      PollMessage.deserialize, andThen, on_super; simpl;
    destruct (Message.deserialize _ inp) as [[p inp1] [e|]]; simpl; try reflexivity;
    unfold rd;
    repeat match goal with
      | |- context [match read ?s with _ => _ end] =>
          destruct (read s) as [[? ?]|]; simpl; try reflexivity
      end.
Qed.

Lemma serialize_set_ready `{Externals} (b : bool) (m : AnyMessage) :
  serialize (set_ready b m) = serialize m.
Proof.
  destruct m; reflexivity.
Qed.

(** Pending: a request object whose completion flag is in its initial
    state, not ready.  The classes without a flag are never pending. *)
Definition pending `{Externals} (a : AnyMessage) : bool :=
  match ready a with
  | Some false => true
  | _ => false
  end.

(** C7 (as the code has it).  For the request classes (Get, Screenshot,
    Query, Poll; the only ones with a [ready] member) the flag adds nothing
    to what [serialize] writes: the bytes are the same whatever its value;
    [deserialize] leaves the flag of the receiving object as it was, on every
    input and whether it returns or throws; so a message received over the
    network is pending exactly when the object it was decoded into was
    pending before, whatever the sender's flag. *)
Theorem C7_ready_stays_local `{Externals}
    (mine m : AnyMessage) (b : bool) (inp rest : stream) :
  (ready m <> None <->
     match m with
     | AGet _ | AScreenshot _ | AQuery _ | APoll _ => True
     | _ => False
     end) /\
  serialize (set_ready b m) = serialize m /\
  ready (fst (fst (deserialize mine inp))) = ready mine /\
  pending (fst (fst (deserialize mine (serialize (set_ready b m) ++ rest)))) =
    pending mine.
Proof.
  split; [ | split; [ | split ]].
  - destruct m; simpl; split; try discriminate; try contradiction; auto.
  - apply serialize_set_ready.
  - apply ready_deserialize.
  - unfold pending. now rewrite ready_deserialize.
Qed.

(** C7 (as stated) fails in its last clause: a resolved query, sent with its
    flag set, is decoded without error into an object whose flag is in its
    initial state, and the message received is pending. *)
Lemma C7_received_message_pending_counterexample :
  QueryMessage.ready Examples.query_resolved = true /\
  @pending Examples.build (AQuery Examples.query_mine) = true /\
  exists q,
    @deserialize Examples.build (AQuery Examples.query_mine)
      (@serialize Examples.build (AQuery Examples.query_resolved)) =
      (AQuery q, [], None) /\
    QueryMessage.query_type q = QueryMessage.query_type Examples.query_resolved /\
    QueryMessage.ready q = false /\
    @pending Examples.build (AQuery q) = true.
Proof.
  split; [reflexivity | split; [reflexivity | ]].
  exists (@QueryMessage.Build_t Examples.build Examples.sent 2 false None).
  repeat split; reflexivity.
Qed.

(** C8.  What a [FenceMessage] writes after the envelope is one value, its
    [type]; the enumerators are encoded 1 for [SceneBegin] and 2 for
    [SceneEnd], and apart from those two the enumeration has only the
    [Unknown] placeholder, 0. *)
Theorem C8_fence_payload `{Externals}
    (m : FenceMessage.t) (e : FenceMessage.FenceType) :
  FenceMessage.serialize m =
    Message.serialize (FenceMessage.super m) ++ write (FenceMessage.type m) /\
  payload (AFence m) = write (FenceMessage.type m) /\
  FenceMessage.FenceType_value FenceMessage.SceneBegin = 1 /\
  FenceMessage.FenceType_value FenceMessage.SceneEnd = 2 /\
  FenceMessage.FenceType_value FenceMessage.Unknown = 0 /\
  (e <> FenceMessage.Unknown <->
     e = FenceMessage.SceneBegin \/ e = FenceMessage.SceneEnd) /\
  (FenceMessage.FenceType_value e = 1 <-> e = FenceMessage.SceneBegin) /\
  (FenceMessage.FenceType_value e = 2 <-> e = FenceMessage.SceneEnd).
Proof.
  repeat split; try reflexivity.
  - destruct e; intros He; auto. now contradiction He.
  - intros [-> | ->]; discriminate.
  - destruct e; simpl; intros He; try reflexivity; discriminate.
  - now intros ->.
  - destruct e; simpl; intros He; try reflexivity; discriminate.
  - now intros ->.
Qed.

(** In the reference build a [SceneBegin] fence ends in the four bytes of
    the [int] 1, a [SceneEnd] fence in those of 2. *)
Example fence_payload_bytes :
  @payload Examples.build (AFence Examples.fence_sent) =
    [Byte.x01; Byte.x00; Byte.x00; Byte.x00] /\
  @write Z (@int_serializer Examples.build)
    (FenceMessage.FenceType_value FenceMessage.SceneEnd) =
    [Byte.x02; Byte.x00; Byte.x00; Byte.x00].
Proof.
  split; reflexivity.
Qed.

(** C6 (what the header has).  [Message::Type] lists [Unknown] and eight
    kinds.  [PollMessage] is one of the nine message classes, yet no
    enumerator is called [Poll]; each of the other eight classes has its
    enumerator, distinct from [Unknown]. *)
Theorem C6_Type_has_no_Poll :
  (forall e, In e Message.Type_all) /\
  map Message.Type_name Message.Type_all =
    ["Unknown"; "Get"; "Set"; "Delete"; "Fence"; "Text"; "Screenshot"; "Query";
     "Response"]%string /\
  map Message.Type_value Message.Type_all = [0; 1; 2; 3; 4; 5; 6; 7; 8] /\
  In "Poll"%string message_classes /\
  Message.Type_named "Poll" = None /\
  (forall c, In c message_classes -> c <> "Poll"%string ->
     exists e, Message.Type_named c = Some e /\ e <> Message.Unknown).
Proof.
  split; [ | split; [ | split; [ | split; [ | split ]]]].
  - intros e. destruct e; simpl; tauto.
  - reflexivity.
  - reflexivity.
  - simpl. tauto.
  - reflexivity.
  - intros c Hc Hne. simpl in Hc.
    repeat (destruct Hc as [<- | Hc];
            [ try (eexists; split; [reflexivity | discriminate]);
              now contradiction Hne | ]).
    contradiction.
Qed.

(** C3 (as the declaration allows).  For every message of every class whose
    serialized form is shorter than 2^32 bytes, [getSerializeSize] is exactly
    the number of bytes [serialize] writes. *)
Theorem C3_size_is_written_length `{Externals} (a : AnyMessage) :
  Z.of_nat (List.length (serialize a)) < 2 ^ 32 ->
  getSerializeSize a = Z.of_nat (List.length (serialize a)).
Proof.
  intros Hfit. rewrite getSerializeSize_length.
  apply uint32_t_small. lia.
Qed.

Lemma C3_size_is_written_length_witness :
  Z.of_nat (List.length (@serialize Examples.build (AText Examples.text_sent))) < 2 ^ 32 /\
  @getSerializeSize Examples.build (AText Examples.text_sent) = 33 /\
  List.length (@serialize Examples.build (AText Examples.text_sent)) = 33%nat.
Proof.
  assert (Hfit : Z.of_nat (List.length
                   (@serialize Examples.build (AText Examples.text_sent))) < 2 ^ 32)
    by (vm_compute; reflexivity).
  split; [exact Hfit | split; [ | reflexivity ]].
  exact (@C3_size_is_written_length Examples.build (AText Examples.text_sent) Hfit).
Defined.

(** A response of at least 2^30 empty strings is longer than any
    [uint32_t]. *)
Lemma size_of_long_response (n : nat) :
  2 ^ 32 <= 4 * Z.of_nat n ->
  @getSerializeSize Examples.build (AResponse (Examples.response_of_empty_strings n)) <>
  Z.of_nat (List.length
              (@serialize Examples.build (AResponse (Examples.response_of_empty_strings n)))).
Proof.
  intros Hn.
  pose proof (Examples.length_response_of_empty_strings n) as Hlen.
  rewrite getSerializeSize_length.
  pose proof (uint32_t_range
    (Z.of_nat (List.length (@serialize Examples.build
       (AResponse (Examples.response_of_empty_strings n)))))) as Hr.
  lia.
Qed.

(** C3 (as stated) fails: a response of 2^30 empty strings is a message the
    encoding covers, its serialized form is longer than 2^32 bytes, and no
    [uint32_t] is that length. *)
Lemma C3_size_counterexample :
  let m := AResponse (Examples.response_of_empty_strings (Z.to_nat (2 ^ 30))) in
  @wf Examples.build m /\
  @getSerializeSize Examples.build m <>
    Z.of_nat (List.length (@serialize Examples.build m)).
Proof.
  intros m. split.
  - apply Examples.wf_response_of_empty_strings.
    rewrite Z2Nat.id by lia. lia.
  - apply size_of_long_response.
    rewrite Z2Nat.id by lia. lia.
Qed.

(** C2 (as the code has it).  For every class and every field value the
    encoding covers, a message that carries the compiled protocol version
    and is serialized and then deserialized into an object of its class
    comes back with every field it had, except those that never reach the
    wire: the [ready] flag of the request classes and the [response] a query
    holds, which stay as the receiving object had them.  All the bytes
    written are consumed and nothing more. *)
Theorem C2_round_trip `{Externals} (mine m : AnyMessage) (rest : stream) :
  same_class mine m = true -> wf m ->
  Message.protocol_version (envelope m) = msProtocolVersion ->
  deserialize mine (serialize m ++ rest) = (with_local_state_of mine m, rest, None).
Proof.
  intros Hclass Hwf Hpv.
  rewrite deserialize_envelope_payload, serialize_envelope_payload, <- app_assoc.
  (* the envelope comes back and the gate is passed *)
  erewrite andThen_done
    by (apply on_super_done, Message_deserialize_serialize;
        [ now apply wf_envelope | exact Hpv ]).
  (* then each class reads back what it wrote *)
  rewrite read_payload_payload.
  - now rewrite with_local_state_of_set_envelope.
  - now rewrite same_class_set_envelope.
  - exact Hwf.
  - apply envelope_set_envelope.
Qed.

Lemma wf_query_resolved : @wf Examples.build (AQuery Examples.query_resolved).
Proof.
  split; [exact Examples.wf_sent | simpl; unfold Wire.int_valid; lia].
Qed.

Lemma C2_round_trip_witness :
  @wf Examples.build (AQuery Examples.query_resolved) /\
  @deserialize Examples.build (AQuery Examples.query_mine)
    (@serialize Examples.build (AQuery Examples.query_resolved) ++ []) =
    (AQuery (@QueryMessage.Build_t Examples.build Examples.sent 2 false None),
     [], None).
Proof.
  split; [exact wf_query_resolved | ].
  exact (@C2_round_trip Examples.build (AQuery Examples.query_mine)
           (AQuery Examples.query_resolved) [] eq_refl wf_query_resolved eq_refl).
Defined.

(** C2 (as stated) fails on two counts.  A resolved query round-trips
    without error, and the [response] it held, which is not a completion
    indicator, is not reproduced.  A fence that carries another protocol
    version does not round-trip at all: the decoder throws and none of the
    sender's [session_id], [message_id] or [type] arrives. *)
Lemma C2_round_trip_counterexample :
  (exists q,
     @deserialize Examples.build (AQuery Examples.query_mine)
       (@serialize Examples.build (AQuery Examples.query_resolved)) =
       (AQuery q, [], None) /\
     QueryMessage.response Examples.query_resolved = Some 1%nat /\
     QueryMessage.response q = None) /\
  (exists f,
     @deserialize Examples.build (AFence Examples.fence_mine)
       (@serialize Examples.build (AFence Examples.fence_ahead)) =
       (AFence f, skipn 4 (@serialize Examples.build (AFence Examples.fence_ahead)),
        Some Message.version_error) /\
     @wf Examples.build (AFence Examples.fence_ahead) /\
     Message.session_id (FenceMessage.super f) <>
       Message.session_id (FenceMessage.super Examples.fence_ahead) /\
     FenceMessage.type f <> FenceMessage.type Examples.fence_ahead).
Proof.
  split.
  - exists (@QueryMessage.Build_t Examples.build Examples.sent 2 false None).
    repeat split; reflexivity.
  - exists (@FenceMessage.Build_t Examples.build
              (@Message.Build_t Examples.build 124 (-1) 0 0) 0).
    split; [reflexivity | split; [ | split; simpl; discriminate ]].
    split; [ | simpl; unfold Wire.int_valid; lia ].
    unfold Message.wf; simpl.
    unfold Wire.int_valid, Wire.uint64_valid, Examples.version. lia.
Qed.

(** ** Further properties of the decoders *)

(** Successive [deserialize] calls on one stream, one receiving object per
    message; the first exception ends the run. *)
Fixpoint deserialize_all `{Externals} (mine : list AnyMessage) (inp : stream)
  : list AnyMessage * stream * option exn :=
  match mine with
  | [] => ([], inp, None)
  | a :: mine' =>
      match deserialize a inp with
      | (a', inp', None) =>
          let '(done, inp'', e) := deserialize_all mine' inp' in
          (a' :: done, inp'', e)
      | (a', inp', Some e) => ([a'], inp', Some e)
      end
  end.

(** Successive [serialize] calls on one stream. *)
Definition serialize_all `{Externals} (ms : list AnyMessage) : stream :=
  flat_map serialize ms.

Section DecoderFacts.
Context `{Externals}.

Lemma with_local_state_of_same (a : AnyMessage) : with_local_state_of a a = a.
Proof.
  destruct a as [m|m|m|m|m|m|m|m|m]; destruct m; reflexivity.
Qed.

(** Unfold the reads of a class and split on each of them. *)
Ltac split_reads :=
  unfold lift, andThen, rd, skip; simpl;
  repeat match goal with
    | |- context [match read ?s with _ => _ end] =>
        destruct (read s) as [[? ?]|]; simpl
    end.

Lemma envelope_read_payload (a : AnyMessage) (inp : stream) :
  envelope (fst (fst (read_payload a inp))) = envelope a.
Proof.
  destruct a as [m|m|m|m|m|m|m|m|m]; simpl; split_reads; reflexivity.
Qed.

(** The reads of a payload fail with a decode error and nothing else. *)
Lemma read_payload_exn (a a' : AnyMessage) (inp inp' : stream) (e : exn) :
  read_payload a inp = (a', inp', Some e) -> e = decode_error.
Proof.
  destruct a as [m|m|m|m|m|m|m|m|m]; simpl; split_reads;
    intros Heq; injection Heq as _ _ Heq; congruence.
Qed.

(** A return from [Message::deserialize]: the four reads went through, the
    version is the compiled one, and nothing of the previous object is left. *)
Lemma Message_deserialize_done (m m' : Message.t) (inp inp' : stream) :
  Message.deserialize m inp = (m', inp', None) ->
  Message.protocol_version m' = msProtocolVersion /\
  forall m2, Message.deserialize m2 inp = (m', inp', None).
Proof.
  unfold Message.deserialize, andThen, rd, throw_unless.
  destruct (read inp) as [[v inp1]|]; [ | discriminate ].
  simpl. destruct (Z.eqb_spec v msProtocolVersion) as [Hv|Hv]; [ | discriminate ].
  destruct (read inp1) as [[s inp2]|]; [ | discriminate ].
  destruct (read inp2) as [[i inp3]|]; [ | discriminate ].
  destruct (read inp3) as [[ts inp4]|]; [ | discriminate ].
  intros Heq. injection Heq as <- <-. split; [exact Hv | ].
  intros m2. simpl. destruct (Z.eqb_spec v msProtocolVersion); [reflexivity | contradiction].
Qed.

(** How [deserialize] of a class splits according to its base-class call. *)
Lemma deserialize_cases (a : AnyMessage) (inp : stream) :
  (exists p inp1 e,
     Message.deserialize (envelope a) inp = (p, inp1, Some e) /\
     deserialize a inp = (set_envelope p a, inp1, Some e)) \/
  (exists p inp1,
     Message.deserialize (envelope a) inp = (p, inp1, None) /\
     deserialize a inp = read_payload (set_envelope p a) inp1).
Proof.
  rewrite deserialize_envelope_payload. unfold andThen, on_super.
  destruct (Message.deserialize (envelope a) inp) as [[p inp1] [e|]].
  - left. exists p, inp1, e. auto.
  - right. exists p, inp1. auto.
Qed.

(** The wire fields after a return do not depend on the receiving object. *)
Lemma read_payload_done (a b a' : AnyMessage) (inp inp' : stream) :
  same_class a b = true -> envelope a = envelope b ->
  read_payload a inp = (a', inp', None) ->
  read_payload b inp = (with_local_state_of b a', inp', None).
Proof.
  destruct a as [m|m|m|m|m|m|m|m|m], b as [r|r|r|r|r|r|r|r|r];
    try discriminate; intros _; simpl; intros Henv; split_reads;
    intros Heq; try discriminate; injection Heq as <- <-;
    destruct m, r; simpl in *; subst; reflexivity.
Qed.
End DecoderFacts.

(** X1.  Whatever the class and whatever the bytes, an object that
    [deserialize] returns from normally carries the compiled protocol
    version. *)
Theorem X1_decoded_version_is_compiled `{Externals}
    (a a' : AnyMessage) (inp inp' : stream) :
  deserialize a inp = (a', inp', None) ->
  Message.protocol_version (envelope a') = msProtocolVersion.
Proof.
  intros Hd.
  destruct (deserialize_cases a inp) as [(p & inp1 & e & _ & Hs) | (p & inp1 & Hm & Hs)].
  - rewrite Hs in Hd. discriminate Hd.
  - apply Message_deserialize_done in Hm. destruct Hm as [Hv _].
    rewrite Hs in Hd.
    pose proof (envelope_read_payload (set_envelope p a) inp1) as He.
    rewrite Hd, envelope_set_envelope in He. simpl in He. now rewrite He.
Qed.

Lemma X1_decoded_version_is_compiled_witness :
  @deserialize Examples.build (AFence Examples.fence_mine)
    (@serialize Examples.build (AFence Examples.fence_sent)) =
    (AFence Examples.fence_sent, [], None) /\
  Message.protocol_version (FenceMessage.super Examples.fence_sent) = 123.
Proof.
  assert (Hd : @deserialize Examples.build (AFence Examples.fence_mine)
                 (@serialize Examples.build (AFence Examples.fence_sent)) =
               (AFence Examples.fence_sent, [], None)) by reflexivity.
  split; [exact Hd | ].
  exact (@X1_decoded_version_is_compiled Examples.build _ _ _ _ Hd).
Defined.

(** X2.  In every class the only [std::runtime_error] that [deserialize]
    throws is the version mismatch: the first integer of the stream was read,
    it is not the compiled version, it is now the object's
    [protocol_version], and no other member and no other byte was touched. *)
Theorem X2_runtime_error_is_version_mismatch `{Externals}
    (a a' : AnyMessage) (inp inp' : stream) (what : string) :
  deserialize a inp = (a', inp', Some (runtime_error what)) ->
  what = "Protocol version doesn't match"%string /\
  exists v, read inp = Some (v, inp') /\ v <> msProtocolVersion /\
            a' = set_envelope (Message.set_protocol_version v (envelope a)) a.
Proof.
  intros Hd.
  destruct (deserialize_cases a inp) as [(p & inp1 & e & Hm & Hs) | (p & inp1 & _ & Hs)];
    rewrite Hs in Hd.
  - injection Hd as <- <- ->.
    apply Message_deserialize_thrown in Hm.
    destruct Hm as (v & Hread & Hv & -> & Hw).
    split; [ now injection Hw | ]. exists v. auto.
  - apply read_payload_exn in Hd. discriminate Hd.
Qed.

Lemma X2_runtime_error_is_version_mismatch_witness :
  let inp := @serialize Examples.build (AFence Examples.fence_ahead) in
  exists a',
    @deserialize Examples.build (AFence Examples.fence_mine) inp =
      (a', skipn 4 inp, Some (runtime_error "Protocol version doesn't match")) /\
    @read Z (@int_serializer Examples.build) inp = Some (124, skipn 4 inp).
Proof.
  intros inp.
  exists (AFence (@FenceMessage.Build_t Examples.build
                    (@Message.Build_t Examples.build 124 (-1) 0 0) 0)).
  assert (Hd : @deserialize Examples.build (AFence Examples.fence_mine) inp =
               (AFence (@FenceMessage.Build_t Examples.build
                          (@Message.Build_t Examples.build 124 (-1) 0 0) 0),
                skipn 4 inp, Some (runtime_error "Protocol version doesn't match")))
    by reflexivity.
  split; [exact Hd | ].
  destruct (@X2_runtime_error_is_version_mismatch Examples.build _ _ _ _ _ Hd)
    as (_ & v & Hread & _ & Ha).
  injection Ha as Hv. rewrite <- Hv in Hread. exact Hread.
Defined.

(** X4.  A normal return overwrites every member that is on the wire: two
    receiving objects of one class, given the same bytes, end up equal in
    everything but their own [ready] flag and [response], and stop at the
    same place. *)
Theorem X4_return_overwrites_wire_fields `{Externals}
    (a b a' : AnyMessage) (inp inp' : stream) :
  same_class a b = true ->
  deserialize a inp = (a', inp', None) ->
  deserialize b inp = (with_local_state_of b a', inp', None).
Proof.
  intros Hc Hd.
  destruct (deserialize_cases a inp) as [(p & inp1 & e & _ & Hs) | (p & inp1 & Hm & Hs)];
    rewrite Hs in Hd; [ discriminate Hd | ].
  apply Message_deserialize_done in Hm. destruct Hm as [_ Hm].
  destruct (deserialize_cases b inp) as [(q & inq & e & Hq & _) | (q & inq & Hq & Hb)];
    rewrite (Hm (envelope b)) in Hq; [ discriminate Hq | ].
  injection Hq as <- <-. rewrite Hb.
  rewrite <- (with_local_state_of_set_envelope p b a').
  apply (read_payload_done (set_envelope p a)); [ | | exact Hd ].
  - destruct a, b; try discriminate; reflexivity.
  - now rewrite !envelope_set_envelope.
Qed.

Lemma X4_return_overwrites_wire_fields_witness :
  @deserialize Examples.build (AQuery Examples.query_mine)
    (@serialize Examples.build (AQuery Examples.query_resolved)) =
    (AQuery (@QueryMessage.Build_t Examples.build Examples.sent 2 false None),
     [], None) /\
  @deserialize Examples.build (AQuery Examples.query_resolved)
    (@serialize Examples.build (AQuery Examples.query_resolved)) =
    (AQuery Examples.query_resolved, [], None).
Proof.
  assert (Hd : @deserialize Examples.build (AQuery Examples.query_mine)
                 (@serialize Examples.build (AQuery Examples.query_resolved)) =
               (AQuery (@QueryMessage.Build_t Examples.build Examples.sent 2 false None),
                [], None)) by reflexivity.
  split; [exact Hd | ].
  exact (@X4_return_overwrites_wire_fields Examples.build
           (AQuery Examples.query_mine) (AQuery Examples.query_resolved) _ _ _
           eq_refl Hd).
Defined.

Section EncoderFacts.
Context `{Externals}.

(** Two encodings that start the same stream are encodings of one value. *)
Lemma write_app_inj {T} `{Serializer T} (x y : T) (r r' : stream) :
  valid x -> valid y -> write x ++ r = write y ++ r' -> x = y /\ r = r'.
Proof.
  intros Hx Hy Heq.
  pose proof (read_write x r Hx) as Rx.
  rewrite Heq, (read_write y r' Hy) in Rx.
  injection Rx as -> ->. auto.
Qed.

Lemma Message_serialize_app_inj (e1 e2 : Message.t) (r1 r2 : stream) :
  Message.wf e1 -> Message.wf e2 ->
  Message.serialize e1 ++ r1 = Message.serialize e2 ++ r2 -> e1 = e2 /\ r1 = r2.
Proof.
  intros (V1 & S1 & M1 & T1) (V2 & S2 & M2 & T2).
  unfold Message.serialize. rewrite <- !app_assoc. intros Heq.
  apply write_app_inj in Heq; [ destruct Heq as [Hv Heq] | assumption .. ].
  apply write_app_inj in Heq; [ destruct Heq as [Hs Heq] | assumption .. ].
  apply write_app_inj in Heq; [ destruct Heq as [Hm Heq] | assumption .. ].
  apply write_app_inj in Heq; [ destruct Heq as [Ht Heq] | assumption .. ].
  destruct e1, e2; simpl in *; subst; auto.
Qed.

Lemma payload_app_inj (m1 m2 : AnyMessage) (r1 r2 : stream) :
  same_class m1 m2 = true -> wf m1 -> wf m2 -> envelope m1 = envelope m2 ->
  payload m1 ++ r1 = payload m2 ++ r2 ->
  with_local_state_of m1 m2 = m1 /\ r1 = r2.
Proof.
  destruct m1 as [a|a|a|a|a|a|a|a|a], m2 as [b|b|b|b|b|b|b|b|b];
    try discriminate; intros _; simpl; intros Hwa Hwb Henv;
    rewrite <- ?app_assoc; intros Heq.
  - destruct Hwa as (_ & A1 & A2 & A3), Hwb as (_ & B1 & B2 & B3).
    apply write_app_inj in Heq; [ destruct Heq as [H1 Heq] | assumption .. ].
    apply write_app_inj in Heq; [ destruct Heq as [H2 Heq] | assumption .. ].
    apply write_app_inj in Heq; [ destruct Heq as [H3 Heq] | assumption .. ].
    destruct a, b; simpl in *; subst; auto.
  - destruct Hwa as (_ & A1), Hwb as (_ & B1).
    apply write_app_inj in Heq; [ destruct Heq as [H1 Heq] | assumption .. ].
    destruct a, b; simpl in *; subst; auto.
  - destruct Hwa as (_ & A1 & A2 & A3), Hwb as (_ & B1 & B2 & B3).
    apply write_app_inj in Heq; [ destruct Heq as [H1 Heq] | assumption .. ].
    apply write_app_inj in Heq; [ destruct Heq as [H2 Heq] | assumption .. ].
    apply write_app_inj in Heq; [ destruct Heq as [H3 Heq] | assumption .. ].
    destruct a, b; simpl in *; subst; auto.
  - destruct Hwa as (_ & A1), Hwb as (_ & B1).
    apply write_app_inj in Heq; [ destruct Heq as [H1 Heq] | assumption .. ].
    destruct a, b; simpl in *; subst; auto.
  - destruct Hwa as (_ & A1 & A2), Hwb as (_ & B1 & B2).
    apply write_app_inj in Heq; [ destruct Heq as [H1 Heq] | assumption .. ].
    apply write_app_inj in Heq; [ destruct Heq as [H2 Heq] | assumption .. ].
    destruct a, b; simpl in *; subst; auto.
  - simpl in Heq. destruct a, b; simpl in *; subst; auto.
  - destruct Hwa as (_ & A1), Hwb as (_ & B1).
    apply write_app_inj in Heq; [ destruct Heq as [H1 Heq] | assumption .. ].
    destruct a, b; simpl in *; subst; auto.
  - destruct Hwa as (_ & A1), Hwb as (_ & B1).
    apply write_app_inj in Heq; [ destruct Heq as [H1 Heq] | assumption .. ].
    destruct a, b; simpl in *; subst; auto.
  - destruct Hwa as (_ & A1), Hwb as (_ & B1).
    apply write_app_inj in Heq; [ destruct Heq as [H1 Heq] | assumption .. ].
    destruct a, b; simpl in *; subst; auto.
Qed.
End EncoderFacts.

(** X5.  Within one class the wire form is unambiguous and self-delimiting,
    whatever the protocol version: when the bytes of one message followed by
    some bytes are the bytes of another followed by some bytes, the two
    messages agree on every member that is written, and so do the bytes that
    follow.  No message's bytes are a proper prefix of another's. *)
Theorem X5_serialize_prefix_free `{Externals}
    (m1 m2 : AnyMessage) (r1 r2 : stream) :
  same_class m1 m2 = true -> wf m1 -> wf m2 ->
  serialize m1 ++ r1 = serialize m2 ++ r2 ->
  with_local_state_of m1 m2 = m1 /\ r1 = r2.
Proof.
  intros Hc W1 W2. rewrite !serialize_envelope_payload, <- !app_assoc. intros Heq.
  apply Message_serialize_app_inj in Heq; try now apply wf_envelope.
  destruct Heq as [Henv Heq].
  now apply payload_app_inj.
Qed.

Lemma X5_serialize_prefix_free_witness :
  @wf Examples.build (AQuery Examples.query_resolved) /\
  @serialize Examples.build (AQuery Examples.query_resolved) ++ [Byte.x09] =
  @serialize Examples.build
    (AQuery (@QueryMessage.Build_t Examples.build Examples.sent 2 false None)) ++
    [Byte.x09] /\
  @with_local_state_of Examples.build (AQuery Examples.query_resolved)
    (AQuery (@QueryMessage.Build_t Examples.build Examples.sent 2 false None)) =
    AQuery Examples.query_resolved.
Proof.
  split; [exact wf_query_resolved | split; [reflexivity | ]].
  exact (proj1 (@X5_serialize_prefix_free Examples.build
                  (AQuery Examples.query_resolved)
                  (AQuery (@QueryMessage.Build_t Examples.build Examples.sent 2 false None))
                  [Byte.x09] [Byte.x09] eq_refl
                  wf_query_resolved wf_query_resolved eq_refl)).
Defined.

(** X6.  Messages written back to back on one stream are read back one
    after the other: each [deserialize] stops exactly where the next message
    starts, so the run returns every message sent (with the receivers' own
    [ready] and [response]) and leaves what followed the last one. *)
Theorem X6_back_to_back `{Externals}
    (mine ms : list AnyMessage) (rest : stream) :
  Forall2 (fun a m => same_class a m = true) mine ms ->
  Forall (fun m => wf m /\ Message.protocol_version (envelope m) = msProtocolVersion) ms ->
  deserialize_all mine (serialize_all ms ++ rest) =
    (map (fun am => with_local_state_of (fst am) (snd am)) (combine mine ms),
     rest, None).
Proof.
  intros Hc. revert rest.
  induction Hc as [|a m mine ms Ham _ IH]; intros rest Hms; [reflexivity|].
  inversion Hms as [|? ? [Hwf Hpv] Hms']; subst.
  unfold serialize_all. simpl flat_map. rewrite <- app_assoc.
  simpl deserialize_all.
  rewrite (deserialize_serialize a m _ Ham Hwf Hpv).
  fold (serialize_all ms). rewrite (IH rest Hms'). reflexivity.
Qed.

Lemma X6_back_to_back_witness :
  @deserialize_all Examples.build
    [AFence Examples.fence_mine; AQuery Examples.query_mine; AFence Examples.fence_mine]
    (@serialize_all Examples.build
       [AFence Examples.fence_sent; AQuery Examples.query_resolved;
        AFence Examples.fence_sent] ++ [Byte.xff]) =
    ([AFence Examples.fence_sent;
      AQuery (@QueryMessage.Build_t Examples.build Examples.sent 2 false None);
      AFence Examples.fence_sent],
     [Byte.xff], None).
Proof.
  apply (@X6_back_to_back Examples.build
           [AFence Examples.fence_mine; AQuery Examples.query_mine;
            AFence Examples.fence_mine]
           [AFence Examples.fence_sent; AQuery Examples.query_resolved;
            AFence Examples.fence_sent] [Byte.xff]).
  - apply Forall2_cons; [reflexivity | ].
    apply Forall2_cons; [reflexivity | ].
    apply Forall2_cons; [reflexivity | apply Forall2_nil].
  - apply Forall_cons; [split; [exact Examples.wf_fence_sent | reflexivity] | ].
    apply Forall_cons; [split; [exact wf_query_resolved | reflexivity] | ].
    apply Forall_cons; [split; [exact Examples.wf_fence_sent | reflexivity] | ].
    apply Forall_nil.
Defined.

(** X7.  Nothing on the wire says which class wrote the bytes: the bytes of
    a fence are accepted by [QueryMessage::deserialize] and by
    [PollMessage::deserialize], which take the fence's [type] for their own
    [query_type] and [poll_type] and consume exactly the fence. *)
Theorem X7_no_class_tag_on_the_wire `{Externals}
    (f : FenceMessage.t) (q : QueryMessage.t) (p : PollMessage.t) (rest : stream) :
  FenceMessage.wf f ->
  Message.protocol_version (FenceMessage.super f) = msProtocolVersion ->
  QueryMessage.deserialize q (FenceMessage.serialize f ++ rest) =
    (QueryMessage.set_query_type (FenceMessage.type f)
       (QueryMessage.set_super (FenceMessage.super f) q), rest, None) /\
  PollMessage.deserialize p (FenceMessage.serialize f ++ rest) =
    (PollMessage.set_poll_type (FenceMessage.type f)
       (PollMessage.set_super (FenceMessage.super f) p), rest, None).
Proof.
  intros [Hw Ht] Hpv.
  unfold QueryMessage.deserialize, PollMessage.deserialize, FenceMessage.serialize.
  rewrite <- app_assoc. split.
  - erewrite andThen_done
      by (apply on_super_done, Message_deserialize_serialize; assumption).
    now apply rd_write.
  - erewrite andThen_done
      by (apply on_super_done, Message_deserialize_serialize; assumption).
    now apply rd_write.
Qed.

Lemma X7_no_class_tag_on_the_wire_witness :
  @FenceMessage.wf Examples.build Examples.fence_sent /\
  @QueryMessage.deserialize Examples.build Examples.query_mine
    (@FenceMessage.serialize Examples.build Examples.fence_sent ++ []) =
    (@QueryMessage.Build_t Examples.build Examples.sent 1 false None, [], None).
Proof.
  split; [exact Examples.wf_fence_sent | ].
  exact (proj1 (@X7_no_class_tag_on_the_wire Examples.build Examples.fence_sent
                  Examples.query_mine
                  (@PollMessage.Build_t Examples.build Examples.fresh 0 false) []
                  Examples.wf_fence_sent eq_refl)).
Defined.

(** X8.  [deserialize] is not transactional.  Whatever becomes of the
    payload, the envelope of the object afterwards is the one
    [Message::deserialize] alone would have left; and when the envelope was
    read and a later read fails, the stream is not rewound to where the call
    began either. *)
Theorem X8_envelope_is_not_rolled_back `{Externals}
    (a : AnyMessage) (inp : stream) :
  envelope (fst (fst (deserialize a inp))) =
    fst (fst (Message.deserialize (envelope a) inp)) /\
  (forall p inp1 a' inp' e,
     Message.deserialize (envelope a) inp = (p, inp1, None) ->
     deserialize a inp = (a', inp', Some e) ->
     e = decode_error /\ envelope a' = p /\
     read_payload (set_envelope p a) inp1 = (a', inp', Some e)).
Proof.
  split.
  - destruct (deserialize_cases a inp) as [(p & inp1 & e & Hm & Hs) | (p & inp1 & Hm & Hs)];
      rewrite Hs, Hm; simpl.
    + apply envelope_set_envelope.
    + rewrite envelope_read_payload. apply envelope_set_envelope.
  - intros p inp1 a' inp' e Hm Hd.
    destruct (deserialize_cases a inp) as [(q & inq & e' & Hq & _) | (q & inq & Hq & Hs)];
      rewrite Hm in Hq; [ discriminate Hq | ].
    injection Hq as <- <-. rewrite Hs in Hd.
    split; [ now apply read_payload_exn in Hd | split; [ | exact Hd ] ].
    pose proof (envelope_read_payload (set_envelope p a) inp1) as He.
    rewrite Hd, envelope_set_envelope in He. exact He.
Qed.

(** A text message cut off inside its payload, in the reference build: the
    decode error leaves, and the receiving object keeps the envelope that was
    read. *)
Example truncated_text_keeps_envelope :
  let inp := firstn 22 (@serialize Examples.build (AText Examples.text_sent)) in
  @deserialize Examples.build
    (AText (@TextMessage.Build_t Examples.build Examples.fresh "" 0)) inp =
    (AText (@TextMessage.Build_t Examples.build Examples.sent "" 0),
     skipn 20 inp, Some decode_error).
Proof.
  reflexivity.
Qed.

(** X9.  The answer a query holds stays where it is: the bytes
    [QueryMessage::serialize] writes are the same whatever [response] is,
    and [QueryMessage::deserialize] leaves [response] and [ready] as the
    receiving object had them, on every input and whether it returns or
    throws. *)
Theorem X9_response_stays_local `{Externals}
    (q : QueryMessage.t) (r : MessagePtr) (inp : stream) :
  QueryMessage.serialize (QueryMessage.set_response r q) = QueryMessage.serialize q /\
  QueryMessage.response (fst (fst (QueryMessage.deserialize q inp))) =
    QueryMessage.response q /\
  QueryMessage.ready (fst (fst (QueryMessage.deserialize q inp))) =
    QueryMessage.ready q.
Proof.
  split; [reflexivity | ].
  unfold QueryMessage.deserialize, andThen, on_super.
  destruct (Message.deserialize (QueryMessage.super q) inp) as [[p inp1] [e|]];
    simpl; [ auto | ].
  unfold rd. destruct (read inp1) as [[v inp2]|]; simpl; auto.
Qed.

(** X10.  What a receiver makes of a message a peer serialized depends on
    the version alone: it returns normally when the message carries the
    compiled version and throws the version mismatch otherwise; a complete
    message never ends in a decode error. *)
Theorem X10_outcome_depends_on_version_only `{Externals}
    (mine m : AnyMessage) (rest : stream) :
  same_class mine m = true -> wf m ->
  snd (deserialize mine (serialize m ++ rest)) =
    (if Message.protocol_version (envelope m) =? msProtocolVersion
     then None else Some Message.version_error).
Proof.
  intros Hc Hwf.
  destruct (Z.eqb_spec (Message.protocol_version (envelope m)) msProtocolVersion)
    as [Hpv|Hpv].
  - now rewrite (deserialize_serialize mine m rest Hc Hwf Hpv).
  - rewrite serialize_envelope_payload. unfold Message.serialize.
    rewrite <- !app_assoc.
    rewrite (deserialize_envelope_mismatch mine (envelope m) (payload m ++ rest));
      [ reflexivity | apply (wf_envelope m Hwf) | exact Hpv ].
Qed.

Lemma X10_outcome_depends_on_version_only_witness :
  @wf Examples.build (AText Examples.text_sent) /\
  snd (@deserialize Examples.build
         (AText (@TextMessage.Build_t Examples.build Examples.fresh "" 0))
         (@serialize Examples.build (AText Examples.text_sent) ++ [])) = None.
Proof.
  split; [exact Examples.wf_text_sent | ].
  exact (@X10_outcome_depends_on_version_only Examples.build
           (AText (@TextMessage.Build_t Examples.build Examples.fresh "" 0))
           (AText Examples.text_sent) [] eq_refl Examples.wf_text_sent).
Defined.
